(** * Storefront API: a shallow embedding of [api/src/index.ts] and [api/src/auth.ts]

    The request handlers are embedded as functions over an explicit store:
    the Prisma tables are lists of rows, and a handler takes the request and
    the store and returns its response with the store it leaves behind.  A
    handler that throws without answering returns no response.  Two
    checkouts in flight are interleaved at the handler's [await]s.

    JavaScript strings are modelled as [string] (ASCII), integers carried by
    JavaScript numbers as [Z] (exact below 2^53), a query parameter passed
    through [Number] as an integer or [NaN].  The [Int] columns of the store
    hold 32-bit integers: a write of a number outside that range throws.  The
    external collaborators (bcryptjs, jsonwebtoken, the store's id default)
    are the methods of a class, with the one law each that the handlers rely
    on. *)

From Stdlib Require Import ZArith Lia String Ascii List.
From stdpp Require Import base list strings gmap sorting.
Import ListNotations.
Open Scope string_scope.
Open Scope list_scope.
Open Scope Z_scope.

(** ** JavaScript strings *)

Module Js.

Definition code (c : ascii) : N := N_of_ascii c.

(** [String.prototype.toLowerCase] on ASCII: A-Z are mapped to a-z. *)
Definition ascii_toLowerCase (c : ascii) : ascii :=
  if ((65 <=? code c) && (code c <=? 90))%N then ascii_of_N (code c + 32) else c.

Fixpoint toLowerCase (s : string) : string :=
  match s with
  | EmptyString => EmptyString
  | String c s' => String (ascii_toLowerCase c) (toLowerCase s')
  end.

(** The character class [[a-z0-9]]. *)
Definition is_az09 (c : ascii) : bool :=
  (((97 <=? code c) && (code c <=? 122)) || ((48 <=? code c) && (code c <=? 57)))%N.

Definition is_dash (c : ascii) : bool := (code c =? 45)%N.

Definition isEmpty (s : string) : bool :=
  match s with EmptyString => true | _ => false end.

(** [s.replace(/[^a-z0-9]+/g, '-')]: every maximal run of characters outside
    the class becomes one dash.  [in_run] tells that the previous character
    belonged to the run being replaced. *)
Fixpoint replace_runs (in_run : bool) (s : string) : string :=
  match s with
  | EmptyString => EmptyString
  | String c s' =>
      if is_az09 c then String c (replace_runs false s')
      else if in_run then replace_runs true s'
      else String "-"%char (replace_runs true s')
  end.

(** [s.replace(/(^-|-$)/g, '')]: a dash is removed when it stands at index 0
    or at the last index. *)
Fixpoint replace_edges (at_start : bool) (s : string) : string :=
  match s with
  | EmptyString => EmptyString
  | String c s' =>
      if is_dash c && (at_start || isEmpty s')
      then replace_edges false s'
      else String c (replace_edges false s')
  end.

(** [String.prototype.trim] on ASCII white space. *)
Definition is_space (c : ascii) : bool :=
  ((code c =? 32) || ((9 <=? code c) && (code c <=? 13)))%N.

Fixpoint trimStart (s : string) : string :=
  match s with
  | String c s' => if is_space c then trimStart s' else s
  | EmptyString => EmptyString
  end.

Fixpoint trimEnd (s : string) : string :=
  match s with
  | EmptyString => EmptyString
  | String c s' =>
      let t := trimEnd s' in
      if is_space c && isEmpty t then EmptyString else String c t
  end.

Definition trim (s : string) : string := trimEnd (trimStart s).

(** [a.includes(b)] *)
Fixpoint includes (a b : string) : bool :=
  String.prefix b a ||
  match a with
  | EmptyString => false
  | String _ a' => includes a' b
  end.

(** ** JavaScript numbers

    A query parameter passed through [Number(...)] is either an integer or
    [NaN]; fractional and infinite values are not represented (the store
    rejects them as [skip]/[take] just as it rejects [NaN]). *)
Inductive number := NaN | Num (z : Z).

Definition Math_max (a b : number) : number :=
  match a, b with
  | Num x, Num y => Num (Z.max x y)
  | _, _ => NaN
  end.

Definition Math_min (a b : number) : number :=
  match a, b with
  | Num x, Num y => Num (Z.min x y)
  | _, _ => NaN
  end.

Definition mul (a b : number) : number :=
  match a, b with
  | Num x, Num y => Num (x * y)
  | _, _ => NaN
  end.

Definition sub (a b : number) : number :=
  match a, b with
  | Num x, Num y => Num (x - y)
  | _, _ => NaN
  end.

(** [Math.ceil(a / b)] for an integer [a >= 0] and an integer [b >= 1]. *)
Definition Math_ceil_div (a b : number) : number :=
  match a, b with
  | Num x, Num y => Num (- ((- x) / y))
  | _, _ => NaN
  end.

(** [x ?? d] *)
Definition nullish {A} (x : option A) (d : A) : A :=
  match x with Some a => a | None => d end.

End Js.

(** ** makeSlug *)

Definition makeSlug (s : string) : string :=
  Js.replace_edges true (Js.replace_runs false (Js.toLowerCase s)).

(** ** Data model (the store's tables) *)

Definition Id := string.

Inductive Role := USER | ADMIN.

Record Category := mkCategory {
  c_id : Id;
  c_name : string;
  c_slug : string
}.

Record Product := mkProduct {
  p_id : Id;
  p_name : string;
  p_slug : string;
  p_description : string;
  p_priceCents : Z;
  p_imageUrl : option string;
  p_stock : Z;
  p_categoryId : Id;
  p_createdAt : Z
}.

Record User := mkUser {
  u_id : Id;
  u_email : string;
  u_passwordHash : string;
  u_role : Role
}.

Record Order := mkOrder {
  o_id : Id;
  o_userEmail : option string;
  o_totalCents : Z
}.

Record OrderItem := mkOrderItem {
  oi_id : Id;
  oi_orderId : Id;
  oi_productId : Id;
  oi_quantity : Z;
  oi_priceCents : Z
}.

Record DB := mkDB {
  products : list Product;
  categories : list Category;
  users : list User;
  orders : list Order;
  orderItems : list OrderItem
}.

Definition set_products (f : list Product → list Product) (db : DB) : DB :=
  mkDB (f (products db)) (categories db) (users db) (orders db) (orderItems db).
Definition set_users (f : list User → list User) (db : DB) : DB :=
  mkDB (products db) (categories db) (f (users db)) (orders db) (orderItems db).
Definition set_orders (f : list Order → list Order) (db : DB) : DB :=
  mkDB (products db) (categories db) (users db) (f (orders db)) (orderItems db).
Definition set_orderItems (f : list OrderItem → list OrderItem) (db : DB) : DB :=
  mkDB (products db) (categories db) (users db) (orders db) (f (orderItems db)).

Definition set_stock (f : Z → Z) (p : Product) : Product :=
  mkProduct (p_id p) (p_name p) (p_slug p) (p_description p) (p_priceCents p)
            (p_imageUrl p) (f (p_stock p)) (p_categoryId p) (p_createdAt p).

(** ** External collaborators

    [newId] is the store's id default (given the ids in use, a new one);
    [bcrypt_hash salt password] and [bcrypt_compare password hash] are
    bcryptjs; [jwt_encode] and [jwt_decode] are jsonwebtoken's signing and
    signature check under [SECRET], on the payload (uid, exp). *)
Class Collaborators := {
  newId : list Id → Id;
  bcrypt_hash : string → string → string;
  bcrypt_compare : string → string → bool;
  Token : Type;
  jwt_encode : Id * Z → Token;
  jwt_decode : Token → option (Id * Z)
}.

Class CollaboratorsOk `{Collaborators} : Prop := {
  newId_fresh : ∀ ids, newId ids ∉ ids;
  bcrypt_compare_hash : ∀ salt pw, bcrypt_compare pw (bcrypt_hash salt pw) = true;
  jwt_decode_encode : ∀ payload, jwt_decode (jwt_encode payload) = Some payload
}.

(** A small instance, used to run the handlers on concrete stores. *)
Definition demo : Collaborators := {|
  newId := fresh;
  bcrypt_hash := λ salt pw, pw +:+ "$" +:+ salt;
  bcrypt_compare := λ pw h, String.prefix (pw +:+ "$") h;
  Token := Id * Z;
  jwt_encode := id;
  jwt_decode := Some
|}.

(** ** HTTP responses *)

Inductive Body :=
  | ErrorBody (error : string)
  | CheckoutBody (orderId : Id) (totalCents : Z)
  | UserBody (id : Id) (email : string) (role : Role)
  | ItemBody (item : Product)
  | PageBody (items : list (Product * option Category))
             (page limit : Js.number) (total : Z) (pageCount : Js.number).

Record Response {T : Type} := mkResponse {
  status : Z;
  body : Body;
  authCookie : option T
}.
Arguments Response : clear implicits.
Arguments mkResponse {T} _ _ _.

(** [res.status(code).json({ error })] and [res.json(body)] *)
Definition error_json {T} (code : Z) (msg : string) : Response T :=
  mkResponse code (ErrorBody msg) None.
Definition json {T} (b : Body) : Response T := mkResponse 200 b None.

(** ** The store's operations (Prisma client calls) *)

(** [priceCents], [stock], [quantity] and [totalCents] are [Int] columns,
    32-bit signed integers: the store refuses to write a number outside the
    range, and the call throws. *)
Definition is_int (z : Z) : bool := (-2147483648 <=? z) && (z <=? 2147483647).

Section Store.
Context `{Collaborators}.

Definition eqb_id (a b : Id) : bool := bool_decide (a = b).

(** [prisma.product.findMany({ where: { id: { in: ids } } })] *)
Definition product_findMany_in (ids : list Id) (db : DB) : list Product :=
  filter (λ p, p_id p ∈ ids) (products db).

Definition product_findUnique_id (id : Id) (db : DB) : option Product :=
  List.find (λ p, eqb_id (p_id p) id) (products db).

Definition product_findUnique_slug (slug : string) (db : DB) : option Product :=
  List.find (λ p, bool_decide (p_slug p = slug)) (products db).

Definition category_findUnique_slug (slug : string) (db : DB) : option Category :=
  List.find (λ c, bool_decide (c_slug c = slug)) (categories db).

Definition category_findUnique_id (id : Id) (db : DB) : option Category :=
  List.find (λ c, eqb_id (c_id c) id) (categories db).

Definition user_findUnique_email (email : string) (db : DB) : option User :=
  List.find (λ u, bool_decide (u_email u = email)) (users db).

Definition user_findUnique_id (id : Id) (db : DB) : option User :=
  List.find (λ u, eqb_id (u_id u) id) (users db).

(** [tx.order.create({ data: { userEmail, totalCents } })]; [None] is the
    throw for a [totalCents] that does not fit the column. *)
Definition order_create (userEmail : option string) (totalCents : Z) (db : DB)
  : option (Order * DB) :=
  if is_int totalCents then
    let o := mkOrder (newId (o_id <$> orders db)) userEmail totalCents in
    Some (o, set_orders (λ os, (os ++ [o])%list) db)
  else None.

(** [tx.orderItem.create({ data: { orderId, productId, quantity, priceCents } })] *)
Definition orderItem_create (orderId productId : Id) (quantity priceCents : Z)
    (db : DB) : option DB :=
  if is_int quantity && is_int priceCents then
    let oi := mkOrderItem (newId (oi_id <$> orderItems db))
                          orderId productId quantity priceCents in
    Some (set_orderItems (λ ois, (ois ++ [oi])%list) db)
  else None.

(** [tx.product.update({ where: { id }, data: { stock: { decrement } } })];
    the store throws when no row has this id, and when the decrement or the
    stock it leaves does not fit the column. *)
Definition product_decrement_stock (id : Id) (n : Z) (db : DB) : option DB :=
  match product_findUnique_id id db with
  | None => None
  | Some p =>
      if is_int n && is_int (p_stock p - n) then
        Some (set_products
                (map (λ p, if eqb_id (p_id p) id then set_stock (λ s, s - n) p else p))
                db)
      else None
  end.

(** [prisma.user.create]; [email] is a unique column. *)
Definition user_create (email passwordHash : string) (role : Role) (db : DB)
  : option (User * DB) :=
  match user_findUnique_email email db with
  | Some _ => None
  | None =>
      let u := mkUser (newId (u_id <$> users db)) email passwordHash role in
      Some (u, set_users (λ us, (us ++ [u])%list) db)
  end.

End Store.

(** ** POST /api/v1/checkout *)

(** A cart line; [quantity] is a JavaScript number holding an integer. *)
Record CartItem := mkCartItem {
  productId : Id;
  quantity : Z
}.

Record CheckoutReq := mkCheckoutReq {
  email : option string;
  items : list CartItem
}.

(** What the handler holds when it reaches [prisma.$transaction]: the
    request's items, the [Map] built from the products it read, and the total
    it computed from that map. *)
Record Pending := mkPending {
  pd_email : option string;
  pd_items : list CartItem;
  pd_map : gmap Id Product;
  pd_totalCents : Z
}.

Section Checkout.
Context `{Collaborators}.

(** [new Map(products.map((p) => [p.id, p]))]: a later entry replaces an
    earlier one under the same key. *)
Definition product_map (ps : list Product) : gmap Id Product :=
  foldl (λ m p, <[p_id p := p]> m) ∅ ps.

(** The validation loop; [Some r] is the early [return res.status(400)...]. *)
Fixpoint validate (map : gmap Id Product) (items : list CartItem)
  : option (Response Token) :=
  match items with
  | [] => None
  | i :: rest =>
      match map !! productId i with
      | None => Some (error_json 400 ("Product not found: " +:+ productId i))
      | Some p =>
          if quantity i <? 1 then Some (error_json 400 "Invalid quantity")
          else if p_stock p <? quantity i
          then Some (error_json 400 ("Not enough stock for " +:+ p_name p))
          else validate map rest
      end
  end.

(** [items.reduce((sum, i) => sum + map.get(i.productId)!.priceCents * i.quantity, 0)];
    [None] when [map.get] is undefined and the property access throws. *)
Definition totalCents_of (map : gmap Id Product) (items : list CartItem) : option Z :=
  foldl (λ sum i,
           s ← sum;
           p ← map !! productId i;
           Some (s + p_priceCents p * quantity i))
        (Some 0) items.

(** [email?.toLowerCase() || null] *)
Definition order_email (email : option string) : option string :=
  match email with
  | None => None
  | Some e => if Js.isEmpty (Js.toLowerCase e) then None else Some (Js.toLowerCase e)
  end.

(** The handler up to the transaction: read the products, validate, total. *)
Definition checkout_validate (req : CheckoutReq) (db : DB)
  : Response Token + Pending :=
  match items req with
  | [] => inl (error_json 400 "No items")
  | _ =>
      let ids := productId <$> items req in
      let products := product_findMany_in ids db in
      let map := product_map products in
      match validate map (items req) with
      | Some r => inl r
      | None =>
          match totalCents_of map (items req) with
          | None => inl (error_json 500 "Checkout failed")
          | Some totalCents => inr (mkPending (email req) (items req) map totalCents)
          end
      end
  end.

(** The loop inside the transaction; [None] is a throw. *)
Fixpoint tx_items (created : Order) (map : gmap Id Product)
    (items : list CartItem) (db : DB) : option DB :=
  match items with
  | [] => Some db
  | i :: rest =>
      p ← map !! productId i;
      db1 ← orderItem_create (o_id created) (p_id p) (quantity i) (p_priceCents p) db;
      db2 ← product_decrement_stock (p_id p) (quantity i) db1;
      tx_items created map rest db2
  end.

(** The callback given to [prisma.$transaction]. *)
Definition checkout_tx (pd : Pending) (db : DB) : option (Order * DB) :=
  '(created, db1) ← order_create (order_email (pd_email pd)) (pd_totalCents pd) db;
  db2 ← tx_items created (pd_map pd) (pd_items pd) db1;
  Some (created, db2).

(** [prisma.$transaction(...)] and the response: a throw inside the callback
    rolls the store back and is caught by the handler's [catch]. *)
Definition checkout_commit (pd : Pending) (db : DB) : Response Token * DB :=
  match checkout_tx pd db with
  | Some (order, db') => (json (CheckoutBody (o_id order) (pd_totalCents pd)), db')
  | None => (error_json 500 "Checkout failed", db)
  end.

(** The handler run with no other request in between. *)
Definition checkout (req : CheckoutReq) (db : DB) : Response Token * DB :=
  match checkout_validate req db with
  | inl r => (r, db)
  | inr pd => checkout_commit pd db
  end.

(** *** Two checkouts in flight

    The handler suspends at its two [await]s: the [findMany] read and the
    transaction.  A request is therefore at one of three points, and the
    event loop advances one request at a time. *)
Inductive Task :=
  | Arrived (req : CheckoutReq)
  | Validated (pd : Pending)
  | Finished (r : Response Token).

Definition step (t : Task) (db : DB) : Task * DB :=
  match t with
  | Arrived req =>
      match checkout_validate req db with
      | inl r => (Finished r, db)
      | inr pd => (Validated pd, db)
      end
  | Validated pd =>
      let '(r, db') := checkout_commit pd db in (Finished r, db')
  | Finished r => (Finished r, db)
  end.

Inductive Turn := FirstReq | SecondReq.

(** Run two requests under a schedule of turns. *)
Fixpoint run (schedule : list Turn) (a b : Task) (db : DB) : Task * Task * DB :=
  match schedule with
  | [] => (a, b, db)
  | FirstReq :: rest => let '(a', db') := step a db in run rest a' b db'
  | SecondReq :: rest => let '(b', db') := step b db in run rest a b' db'
  end.

Definition succeeded (t : Task) : bool :=
  match t with
  | Finished r => status r =? 200
  | _ => false
  end.

End Checkout.

(** ** GET /api/v1/products *)

(** The [where] object handed to the store. *)
#[local] Set Warnings "-register-all".
Inductive Where :=
  | NameContains (q : string)
  | DescriptionContains (q : string)
  | CategorySlugEquals (c : string)
  | CategoryNameEquals (c : string)
  | OR (alternatives : list Where)
  | AND (conjuncts : list Where).

(** The query string; [query_page] and [query_limit] hold
    [Number(req.query.page)] and [Number(req.query.limit)] of a supplied
    parameter. *)
Record ListQuery := mkListQuery {
  query_q : option string;
  query_category : option string;
  query_page : option Js.number;
  query_limit : option Js.number
}.

Section Catalog.
Context `{Collaborators}.

(** [{ equals: b, mode: 'insensitive' }] and [{ contains: b, mode:
    'insensitive' }] on a column holding [a].  The store runs both as a
    case-insensitive pattern match with [b] as it comes, so that [%], [_] and
    [\] in [b] act as wildcards and escape; for a [b] without these three
    characters that is the comparison of the lower-cased strings below, and
    it is for such [b] that the filters are modelled. *)
Definition insensitive_equals (a b : string) : bool :=
  bool_decide (Js.toLowerCase a = Js.toLowerCase b).

Definition insensitive_contains (a b : string) : bool :=
  Js.includes (Js.toLowerCase a) (Js.toLowerCase b).

Fixpoint matches (db : DB) (w : Where) (p : Product) : bool :=
  match w with
  | NameContains q => insensitive_contains (p_name p) q
  | DescriptionContains q => insensitive_contains (p_description p) q
  | CategorySlugEquals c =>
      match category_findUnique_id (p_categoryId p) db with
      | Some cat => insensitive_equals (c_slug cat) c
      | None => false
      end
  | CategoryNameEquals c =>
      match category_findUnique_id (p_categoryId p) db with
      | Some cat => insensitive_equals (c_name cat) c
      | None => false
      end
  | OR ws => existsb (λ w', matches db w' p) ws
  | AND ws => forallb (λ w', matches db w' p) ws
  end.

(** The rows in [createdAt] descending order.  Between rows of one and the
    same [createdAt] the store fixes no order, and may choose differently
    from one call to the next; [sort_desc] puts the row inserted later
    first. *)
Fixpoint insert_desc (p : Product) (l : list Product) : list Product :=
  match l with
  | [] => [p]
  | x :: l' => if p_createdAt x <? p_createdAt p then p :: l else x :: insert_desc p l'
  end.

Definition sort_desc (l : list Product) : list Product := foldr insert_desc [] l.

(** [prisma.product.count({ where })] *)
Definition product_count (w : Where) (db : DB) : Z :=
  Z.of_nat (length (List.filter (matches db w) (products db))).

(** [prisma.product.findMany({ where, orderBy: { createdAt: 'desc' }, skip,
    take, include: { category: true } })].  The store rejects a [skip] or
    [take] that is not an integer ([None]); the handler never passes a
    negative one, and the model leaves those out as well. *)
Definition product_findMany (w : Where) (skip_arg take_arg : Js.number) (db : DB)
  : option (list (Product * option Category)) :=
  match skip_arg, take_arg with
  | Js.Num s, Js.Num t =>
      if (0 <=? s) && (0 <=? t) then
        Some ((λ p, (p, category_findUnique_id (p_categoryId p) db)) <$>
              take (Z.to_nat t)
                (drop (Z.to_nat s) (sort_desc (List.filter (matches db w) (products db)))))
      else None
  | _, _ => None
  end.

Definition nonEmpty (s : option string) : option string :=
  match s with
  | Some (String c s') => Some (String c s')
  | _ => None
  end.

(** The handler's construction of [where] from [q] and [category]. *)
Definition build_where (q category : option string) : Where :=
  let where_OR :=
    match nonEmpty q with
    | Some q' => Some [NameContains q'; DescriptionContains q']
    | None => None
    end in
  match nonEmpty category with
  | Some c =>
      AND ((match where_OR with Some l => [OR l] | None => [] end) ++
           [OR [CategorySlugEquals c; CategoryNameEquals c]])%list
  | None =>
      match where_OR with
      | Some l => OR l
      | None => AND []
      end
  end.

(** [Math.max(1, Number(req.query.page ?? 1))] *)
Definition page_of (query : ListQuery) : Js.number :=
  Js.Math_max (Js.Num 1) (Js.nullish (query_page query) (Js.Num 1)).

(** [Math.min(24, Math.max(1, Number(req.query.limit ?? 9)))] *)
Definition limit_of (query : ListQuery) : Js.number :=
  Js.Math_min (Js.Num 24)
    (Js.Math_max (Js.Num 1) (Js.nullish (query_limit query) (Js.Num 9))).

(** The reply is [None] when the store rejects the call and the handler
    throws without answering. *)
Definition listProducts (query : ListQuery) (db : DB) : option (Response Token) :=
  let q := Js.trim <$> query_q query in
  let category := Js.trim <$> query_category query in
  let page := page_of query in
  let limit := limit_of query in
  let skip := Js.mul (Js.sub page (Js.Num 1)) limit in
  let where_ := build_where q category in
  let total := product_count where_ db in
  items ← product_findMany where_ skip limit db;
  Some (json (PageBody items page limit total
                (Js.Math_max (Js.Num 1) (Js.Math_ceil_div (Js.Num total) limit)))).

End Catalog.

(** ** Session and auth ([auth.ts], /api/v1/auth/...) *)

(** The JSON body of register and login; [None] is a missing field. *)
Record AuthBody := mkAuthBody {
  auth_email : option string;
  auth_password : option string
}.

Section Auth.
Context `{Collaborators}.

(** [jwt.sign({ uid: userId }, SECRET, { expiresIn: '7d' })] at time [now]
    (seconds). *)
Definition signToken (now : Z) (userId : Id) : Token :=
  jwt_encode (userId, now + 7 * 24 * 3600).

(** [jwt.verify(token, SECRET)]: the signature must check and the token must
    not have expired; [None] is the throw. *)
Definition jwt_verify (now : Z) (token : Token) : option Id :=
  match jwt_decode token with
  | Some (uid, exp) => if now <? exp then Some uid else None
  | None => None
  end.

Definition readUserFromReq (cookie : option Token) (now : Z) (db : DB) : option User :=
  match cookie with
  | None => None
  | Some token =>
      match jwt_verify now token with
      | Some uid => user_findUnique_id uid db
      | None => None
      end
  end.

Definition user_json (token : option Token) (u : User) : Response Token :=
  mkResponse 200 (UserBody (u_id u) (u_email u) (u_role u)) token.

(** POST /api/v1/auth/register.  [salt] is the salt bcrypt draws; the reply
    is [None] when the handler throws without answering. *)
Definition register (b : AuthBody) (salt : string) (now : Z) (db : DB)
  : option (Response Token) * DB :=
  match nonEmpty (auth_email b), nonEmpty (auth_password b) with
  | Some email, Some password =>
      match user_findUnique_email (Js.toLowerCase email) db with
      | Some _ => (Some (error_json 400 "Email already in use"), db)
      | None =>
          let passwordHash := bcrypt_hash salt password in
          match user_create (Js.toLowerCase email) passwordHash USER db with
          | None => (None, db)
          | Some (user, db') =>
              (Some (user_json (Some (signToken now (u_id user))) user), db')
          end
      end
  | _, _ => (Some (error_json 400 "Email and password required"), db)
  end.

(** POST /api/v1/auth/login.  A missing [email] makes [email.toLowerCase()]
    throw, a missing [password] makes [bcrypt.compare] reject. *)
Definition login (b : AuthBody) (now : Z) (db : DB) : option (Response Token) :=
  match auth_email b with
  | None => None
  | Some email =>
      match user_findUnique_email (Js.toLowerCase email) db with
      | None => Some (error_json 400 "Invalid email or password")
      | Some user =>
          match auth_password b with
          | None => None
          | Some password =>
              if bcrypt_compare password (u_passwordHash user)
              then Some (user_json (Some (signToken now (u_id user))) user)
              else Some (error_json 400 "Invalid email or password")
          end
      end
  end.

End Auth.

(** ** Admin product create and update *)

(** A key of the JSON body: missing, [null], or a value. *)
Inductive Field (A : Type) :=
  | Absent
  | Null
  | Val (a : A).
Arguments Absent {A}.
Arguments Null {A}.
Arguments Val {A} _.

Record ProductBody := mkProductBody {
  b_name : Field string;
  b_slug : Field string;
  b_description : Field string;
  b_priceCents : Field Z;
  b_imageUrl : Field string;
  b_stock : Field Z;
  b_categorySlug : Field string
}.

(** The [data] object of [prisma.product.update]: [None] is a key that was
    not set. *)
Record ProductData := mkProductData {
  d_name : option string;
  d_slug : option string;
  d_description : option string;
  d_priceCents : option Z;
  d_imageUrl : option (option string);
  d_stock : option Z;
  d_categoryId : option Id
}.

Section Admin.
Context `{Collaborators}.

(** [x != null] *)
Definition notNull {A} (x : Field A) : option A :=
  match x with Val a => Some a | _ => None end.

(** A truthy string, as in [if (categorySlug)], [!name], [slug ? .. : ..],
    [slug || ..] and [name || '']. *)
Definition truthy (x : Field string) : option string :=
  match x with Val (String c s) => Some (String c s) | _ => None end.

Definition requireAdmin (ADMIN_KEY : string) (key : option string) : bool :=
  match nonEmpty key with
  | Some k => bool_decide (k = ADMIN_KEY)
  | None => false
  end.

(** [prisma.product.create]; [slug] is a unique column, [priceCents] and
    [stock] are [Int] columns. *)
Definition product_create (name slug description : string) (priceCents : Z)
    (imageUrl : option string) (stock : Z) (categoryId : Id) (now : Z) (db : DB)
  : option (Product * DB) :=
  match product_findUnique_slug slug db with
  | Some _ => None
  | None =>
      if is_int priceCents && is_int stock then
        let p := mkProduct (newId (p_id <$> products db)) name slug description
                           priceCents imageUrl stock categoryId now in
        Some (p, set_products (λ ps, (ps ++ [p])%list) db)
      else None
  end.

Definition apply_data (d : ProductData) (p : Product) : Product :=
  mkProduct (p_id p)
            (Js.nullish (d_name d) (p_name p))
            (Js.nullish (d_slug d) (p_slug p))
            (Js.nullish (d_description d) (p_description p))
            (Js.nullish (d_priceCents d) (p_priceCents p))
            (Js.nullish (d_imageUrl d) (p_imageUrl p))
            (Js.nullish (d_stock d) (p_stock p))
            (Js.nullish (d_categoryId d) (p_categoryId p))
            (p_createdAt p).

(** [prisma.product.update({ where: { id }, data })]: throws when no row has
    the id, when [data.slug] is the slug of another row, or when
    [data.priceCents] or [data.stock] does not fit its column. *)
Definition product_update (id : Id) (d : ProductData) (db : DB)
  : option (Product * DB) :=
  match product_findUnique_id id db with
  | None => None
  | Some p =>
      let taken :=
        match d_slug d with
        | Some s =>
            existsb (λ p', negb (eqb_id (p_id p') id) && bool_decide (p_slug p' = s))
                    (products db)
        | None => false
        end in
      let fits :=
        is_int (Js.nullish (d_priceCents d) 0) && is_int (Js.nullish (d_stock d) 0) in
      if taken then None
      else if fits then
        Some (apply_data d p,
              set_products
                (map (λ p', if eqb_id (p_id p') id then apply_data d p' else p'))
                db)
      else None
  end.

(** POST /api/v1/admin/products, past [requireAdmin]. *)
Definition adminCreateProduct (b : ProductBody) (now : Z) (db : DB)
  : option (Response Token) * DB :=
  match truthy (b_name b), notNull (b_priceCents b), truthy (b_categorySlug b) with
  | Some name, Some priceCents, Some categorySlug =>
      match category_findUnique_slug categorySlug db with
      | None => (Some (error_json 400 "category not found"), db)
      | Some cat =>
          let slug :=
            match truthy (b_slug b) with
            | Some s => s
            | None => makeSlug name
            end in
          match product_create name slug
                  (Js.nullish (notNull (b_description b)) EmptyString)
                  priceCents
                  (notNull (b_imageUrl b))
                  (Js.nullish (notNull (b_stock b)) 0)
                  (c_id cat) now db with
          | None => (None, db)
          | Some (item, db') => (Some (json (ItemBody item)), db')
          end
      end
  | _, _, _ => (Some (error_json 400 "name, priceCents, categorySlug required"), db)
  end.

(** The [data] the update handler builds from the body, before the category
    lookup. *)
Definition update_data (b : ProductBody) : ProductData :=
  mkProductData
    (notNull (b_name b))
    (match notNull (b_slug b) with
     | Some slug =>
         Some (match truthy (b_slug b) with
               | Some s => s
               | None => makeSlug (Js.nullish (truthy (b_name b)) EmptyString)
               end)
     | None => None
     end)
    (notNull (b_description b))
    (notNull (b_priceCents b))
    (match b_imageUrl b with
     | Absent => None
     | Null => Some None
     | Val u => Some (Some u)
     end)
    (notNull (b_stock b))
    None.

Definition set_categoryId (c : Id) (d : ProductData) : ProductData :=
  mkProductData (d_name d) (d_slug d) (d_description d) (d_priceCents d)
                (d_imageUrl d) (d_stock d) (Some c).

(** PUT /api/v1/admin/products/:id, past [requireAdmin]. *)
Definition adminUpdateProduct (id : Id) (b : ProductBody) (db : DB)
  : option (Response Token) * DB :=
  let data := update_data b in
  let with_category :=
    match truthy (b_categorySlug b) with
    | Some categorySlug =>
        match category_findUnique_slug categorySlug db with
        | None => inl (error_json 400 "category not found")
        | Some cat => inr (set_categoryId (c_id cat) data)
        end
    | None => inr data
    end in
  match with_category with
  | inl r => (Some r, db)
  | inr data' =>
      match product_update id data' db with
      | None => (None, db)
      | Some (item, db') => (Some (json (ItemBody item)), db')
      end
  end.

(** The routes behind the [requireAdmin] middleware. *)
Definition admin_route (ADMIN_KEY : string) (key : option string)
    (handler : DB → option (Response Token) * DB) (db : DB)
  : option (Response Token) * DB :=
  if requireAdmin ADMIN_KEY key then handler db
  else (Some (error_json 401 "unauthorized"), db).

End Admin.

(** ** Normalised slugs *)

(** No character outside [[a-z0-9-]] and no dash after a dash ([prev_dash]
    tells that the previous character was one). *)
Fixpoint single_dashes (prev_dash : bool) (s : string) : bool :=
  match s with
  | EmptyString => true
  | String c s' =>
      if Js.is_az09 c then single_dashes false s'
      else Js.is_dash c && negb prev_dash && single_dashes true s'
  end.

(** The same, and the string does not end with a dash. *)
Fixpoint slug_from (prev_dash : bool) (s : string) : bool :=
  match s with
  | EmptyString => negb prev_dash
  | String c s' =>
      if Js.is_az09 c then slug_from false s'
      else Js.is_dash c && negb prev_dash && slug_from true s'
  end.

(** A normalised slug: words over [[a-z0-9]] joined by single dashes. *)
Definition is_slug (s : string) : bool :=
  match s with
  | EmptyString => true
  | _ => slug_from true s
  end.

(** The letters and digits of a string, in order. *)
Fixpoint alnum (s : string) : string :=
  match s with
  | EmptyString => EmptyString
  | String c s' => if Js.is_az09 c then String c (alnum s') else alnum s'
  end.

(** ** Checkout: what the specification asks of a cart line *)

(** The line passes the three per-item preconditions. *)
Definition Acceptable (db : DB) (i : CartItem) : Prop :=
  ∃ p, p ∈ products db ∧ p_id p = productId i ∧ 1 ≤ quantity i ≤ p_stock p.

(** The first precondition the line fails, with the message reported. *)
Inductive Violation (db : DB) (i : CartItem) : string → Prop :=
  | ProductNotFound :
      productId i ∉ p_id <$> products db →
      Violation db i ("Product not found: " +:+ productId i)
  | InvalidQuantity p :
      p ∈ products db → p_id p = productId i → quantity i < 1 →
      Violation db i "Invalid quantity"
  | InsufficientStock p :
      p ∈ products db → p_id p = productId i → 1 ≤ quantity i →
      p_stock p < quantity i →
      Violation db i ("Not enough stock for " +:+ p_name p).

(** The price of a product in the store, and the total and the quantities a
    cart asks for. *)
Definition unit_price (db : DB) (id : Id) : Z :=
  match product_findUnique_id id db with
  | Some p => p_priceCents p
  | None => 0
  end.

Definition cart_total (db : DB) (items : list CartItem) : Z :=
  foldr (λ i acc, unit_price db (productId i) * quantity i + acc) 0 items.

Definition requested (id : Id) (items : list CartItem) : Z :=
  foldr (λ i acc, (if eqb_id (productId i) id then quantity i else 0) + acc) 0 items.

Definition line_of (oi : OrderItem) : Id * Id * Z * Z :=
  (oi_orderId oi, oi_productId oi, oi_quantity oi, oi_priceCents oi).

(** The product of the line is in the store. *)
Definition Known (db : DB) (i : CartItem) : Prop :=
  productId i ∈ p_id <$> products db.

Definition stocks (db : DB) : list (Id * Z) :=
  (λ p, (p_id p, p_stock p)) <$> products db.

(** A number that fits an [Int] column. *)
Definition in_Int (z : Z) : Prop := -2147483648 ≤ z ≤ 2147483647.

(** ** Catalog: order of a page and well-formed parameters *)

Definition newer_first (a b : Product) : Prop := p_createdAt b ≤ p_createdAt a.

(** A search text with none of [%], [_] and [\], the three characters a
    pattern match reads as wildcards and escape. *)
Definition is_wildcard (c : ascii) : bool :=
  ((Js.code c =? 37) || (Js.code c =? 95) || (Js.code c =? 92))%N.

Fixpoint plain (s : string) : bool :=
  match s with
  | EmptyString => true
  | String c s' => negb (is_wildcard c) && plain s'
  end.

Definition plain_text (x : option string) : Prop :=
  ∀ s, x = Some s → plain s = true.

(** A parameter that is missing or a number. *)
Definition numeric (x : option Js.number) : Prop := x ≠ Some Js.NaN.

(** ** Admin update: null keys *)

(** A [null] under one of the five keys tested with [!= null], read as a
    missing key. *)
Definition null_as_absent {A} (x : Field A) : Field A :=
  match x with Null => Absent | _ => x end.

Definition drop_nulls (b : ProductBody) : ProductBody :=
  mkProductBody (null_as_absent (b_name b)) (null_as_absent (b_slug b))
                (null_as_absent (b_description b)) (null_as_absent (b_priceCents b))
                (b_imageUrl b) (null_as_absent (b_stock b)) (b_categorySlug b).

(** ** Stores and requests used in the examples *)

(** One product P1 with price 1000 and stock [S]. *)
Definition shop_with (S : Z) : DB :=
  mkDB [mkProduct "P1" "Basic Tee" "basic-tee" "Soft cotton tee" 1000 None S "c1" 0]
       [mkCategory "c1" "Clothing" "clothing"] [] [] [].

Definition shop : DB := shop_with 5.

(** The same store after an admin has set the price of P1 to 1500 and its
    stock to 4. *)
Definition shop_repriced : DB :=
  mkDB [mkProduct "P1" "Basic Tee" "basic-tee" "Soft cotton tee" 1500 None 4 "c1" 0]
       [mkCategory "c1" "Clothing" "clothing"] [] [] [].

Definition cart_of (Q : Z) : CheckoutReq := mkCheckoutReq None [mkCartItem "P1" Q].
Definition cart_2 : CheckoutReq := cart_of 2.
Definition cart_3 : CheckoutReq := cart_of 3.
Definition cart_3_3 : CheckoutReq :=
  mkCheckoutReq None [mkCartItem "P1" 3; mkCartItem "P1" 3].
Definition cart_unknown : CheckoutReq :=
  mkCheckoutReq None [mkCartItem "P1" 1; mkCartItem "P9" 1].

(** Both requests read before either commits; and one after the other. *)
Definition interleaved : list Turn := [FirstReq; SecondReq; FirstReq; SecondReq].
Definition serial : list Turn := [FirstReq; FirstReq; SecondReq; SecondReq].

Definition catalog10 : DB :=
  mkDB ((λ '(i, t), mkProduct i "Tee" ("tee-" +:+ i) "A tee" 100 None 1 "c1" t)
          <$> [("c", 3); ("a", 1); ("d", 4); ("j", 10); ("e", 5);
               ("i", 9); ("b", 2); ("f", 6); ("h", 8); ("g", 7)])
       [mkCategory "c1" "Clothing" "clothing"] [] [] [].

Definition query_default : ListQuery := mkListQuery None None None None.
Definition query_page2 : ListQuery := mkListQuery None None (Some (Js.Num 2)) None.
Definition query_limit_abc : ListQuery := mkListQuery None None None (Some Js.NaN).

(** The store after [prisma/seed.ts], with ids of our choosing, and one
    registered user. *)
Definition seeded : DB :=
  mkDB [mkProduct "p1" "Basic Tee" "basic-tee" "Soft cotton tee" 1999
          (Some "https://picsum.photos/seed/tee/400/300") 50 "c1" 1;
        mkProduct "p2" "Hoodie" "hoodie" "Comfy hoodie" 4999
          (Some "https://picsum.photos/seed/hoodie/400/300") 30 "c1" 2;
        mkProduct "p3" "Cap" "cap" "Adjustable cap" 1499
          (Some "https://picsum.photos/seed/cap/400/300") 80 "c1" 3;
        mkProduct "p4" "Sneakers" "sneakers" "Everyday sneakers" 7999
          (Some "https://picsum.photos/seed/sneakers/400/300") 20 "c1" 4]
       [mkCategory "c1" "Clothing" "clothing"]
       [mkUser "u1" "ann@example.com" "secret$salt" USER]
       [] [].

Definition ann_wrong : AuthBody := mkAuthBody (Some "Ann@Example.com") (Some "guess").
Definition bob_unknown : AuthBody := mkAuthBody (Some "bob@example.com") (Some "secret").
Definition carol : AuthBody := mkAuthBody (Some "Carol@Example.com") (Some "hunter2").

(** A user who registers after Carol. *)
Definition dave : User := mkUser "u7" "dave@example.com" "pass$pepper" USER.

(** The bodies [{ stock: 5 }], [{ slug: '' }], [{ imageUrl: null }] and
    [{ name: null, slug: null, description: null, priceCents: null, stock: null }]. *)
Definition body_stock_5 : ProductBody :=
  mkProductBody Absent Absent Absent Absent Absent (Val 5) Absent.
Definition body_slug_cleared : ProductBody :=
  mkProductBody Absent (Val EmptyString) Absent Absent Absent Absent Absent.
Definition body_imageUrl_null : ProductBody :=
  mkProductBody Absent Absent Absent Absent Null Absent Absent.
Definition body_nulls : ProductBody :=
  mkProductBody Null Null Null Null Absent Null Absent.

(** ** Replies of the read-only handlers

    [Json code payload] is [res.status(code).json(payload)] (200 when the
    handler sets no status), [Failure code error] is
    [res.status(code).json({ error })]. *)
Inductive Reply (A : Type) :=
  | Json (code : Z) (payload : A)
  | Failure (code : Z) (error : string).
Arguments Json {A} _ _.
Arguments Failure {A} _ _.

(** ** GET /api/v1/products/:slug

    The route parameter is a path segment that is not empty: a request for
    [/api/v1/products/] is served by the product list.  The handler is
    therefore only ever run on a [slug] that is not the empty string. *)

Definition getProductBySlug (slug : string) (db : DB) : Reply (Product * option Category) :=
  match product_findUnique_slug slug db with
  | None => Failure 404 "Not found"
  | Some item => Json 200 (item, category_findUnique_id (p_categoryId item) db)
  end.

(** ** GET /api/v1/admin/products, past [requireAdmin] *)

Definition adminListProducts (db : DB) : Reply (list (Product * option Category)) :=
  Json 200 ((λ p, (p, category_findUnique_id (p_categoryId p) db))
              <$> sort_desc (products db)).

(** ** Purchase history by email

    [orders db] holds the orders in the order of their creation
    ([order_create] appends), so [orderBy: { createdAt: 'desc' }] is that
    list reversed. *)

(** [include: { items: { include: { product: ... } } }] *)
Definition order_with_items (db : DB) (o : Order)
  : Order * list (OrderItem * option Product) :=
  (o, (λ oi, (oi, product_findUnique_id (oi_productId oi) db))
        <$> filter (λ oi, oi_orderId oi = o_id o) (orderItems db)).

(** [prisma.order.findMany({ where: { userEmail: email }, include, orderBy })] *)
Definition order_findMany_userEmail (email : string) (db : DB)
  : list (Order * list (OrderItem * option Product)) :=
  order_with_items db <$> reverse (filter (λ o, o_userEmail o = Some email) (orders db)).

(** GET /api/v1/orders/by-email/:email *)
Definition ordersByEmailParam (email : string) (db : DB)
  : Reply (list (Order * list (OrderItem * option Product))) :=
  Json 200 (order_findMany_userEmail (Js.toLowerCase email) db).

(** [select: { id, name, slug, imageUrl }] *)
Definition product_summary (p : Product) : Id * string * string * option string :=
  (p_id p, p_name p, p_slug p, p_imageUrl p).

(** GET /api/v1/orders/by-email?email=...; [None] is a missing parameter. *)
Definition ordersByEmailQuery (email : option string) (db : DB)
  : Reply (list (Order * list (OrderItem * option (Id * string * string * option string)))) :=
  let email := Js.toLowerCase (Js.trim (Js.nullish email EmptyString)) in
  if Js.isEmpty email then Failure 400 "email required"
  else Json 200
         ((λ ol : Order * list (OrderItem * option Product),
             (ol.1, (λ l : OrderItem * option Product, (l.1, product_summary <$> l.2))
                      <$> ol.2))
            <$> order_findMany_userEmail email db).

Section Session.
Context `{Collaborators}.

(** GET /api/v1/auth/me *)
Definition authMe (cookie : option Token) (now : Z) (db : DB) : Reply (option User) :=
  Json 200 (readUserFromReq cookie now db).

(** [requireAuth(handler)] of [auth.ts] *)
Definition requireAuth {A} (handler : User → DB → Reply A)
    (cookie : option Token) (now : Z) (db : DB) : Reply A :=
  match readUserFromReq cookie now db with
  | None => Failure 401 "Unauthorized"
  | Some u => handler u db
  end.

End Session.

(** ** What the extra properties speak of *)

(** The text filter and the category filter of a product list, as the
    handler's [where] is meant to act. *)
Definition text_matches (q : option string) (p : Product) : bool :=
  match nonEmpty q with
  | Some q' => insensitive_contains (p_name p) q' || insensitive_contains (p_description p) q'
  | None => true
  end.

Definition category_matches (db : DB) (c : option string) (p : Product) : bool :=
  match nonEmpty c with
  | Some c' =>
      match category_findUnique_id (p_categoryId p) db with
      | Some cat => insensitive_equals (c_slug cat) c' || insensitive_equals (c_name cat) c'
      | None => false
      end
  | None => true
  end.

(** The two filters in the specification's words: the text is contained,
    letter case apart, in the name or in the description; the category
    equals, letter case apart, the slug or the name of the product's
    category.  A filter that is missing or empty lets every product
    through. *)
Definition contains_ci (text q : string) : Prop :=
  ∃ pre post, Js.toLowerCase text = pre +:+ Js.toLowerCase q +:+ post.

Definition equals_ci (a b : string) : Prop := Js.toLowerCase a = Js.toLowerCase b.

Definition Selected (db : DB) (q category : option string) (p : Product) : Prop :=
  (∀ q', q = Some q' → q' ≠ EmptyString →
     contains_ci (p_name p) q' ∨ contains_ci (p_description p) q') ∧
  (∀ c, category = Some c → c ≠ EmptyString →
     ∃ cat, category_findUnique_id (p_categoryId p) db = Some cat ∧
            (equals_ci (c_slug cat) c ∨ equals_ci (c_name cat) c)).

(** The same query for page [k], and the products of the page returned. *)
Definition with_page (k : Z) (query : ListQuery) : ListQuery :=
  mkListQuery (query_q query) (query_category query) (Some (Js.Num k)) (query_limit query).

Definition page_products `{Collaborators} (query : ListQuery) (db : DB) : list Product :=
  match listProducts query db with
  | Some (mkResponse _ (PageBody items _ _ _ _) _) => fst <$> items
  | _ => []
  end.

Definition page_count `{Collaborators} (query : ListQuery) (db : DB) : Z :=
  match listProducts query db with
  | Some (mkResponse _ (PageBody _ _ _ _ (Js.Num pc)) _) => pc
  | _ => 0
  end.


(** Two products that differ at most in stock. *)
Definition same_but_stock (p p' : Product) : Prop :=
  p' = set_stock (λ _, p_stock p') p.

(** Store invariants: product ids are distinct and every product's category
    exists; user ids and emails are distinct and emails are lower-case. *)
Definition products_wf (db : DB) : Prop :=
  NoDup (p_id <$> products db) ∧
  Forall (λ p, p_categoryId p ∈ c_id <$> categories db) (products db).

Definition users_wf (db : DB) : Prop :=
  NoDup (u_id <$> users db) ∧ NoDup (u_email <$> users db) ∧
  Forall (λ u, Js.toLowerCase (u_email u) = u_email u) (users db).

(** ** Checkout: lines, order items and stock *)

(** A line the validation loop lets through. *)
Definition passes (m : gmap Id Product) (i : CartItem) : Prop :=
  ∃ p, m !! productId i = Some p ∧ 1 ≤ quantity i ≤ p_stock p.

(** A cart line and the order item made from it. *)
Definition line_made (created : Order) (m : gmap Id Product)
    (i : CartItem) (oi : OrderItem) : Prop :=
  ∃ p, m !! productId i = Some p ∧
       oi_orderId oi = o_id created ∧ oi_productId oi = p_id p ∧
       oi_quantity oi = quantity i ∧ oi_priceCents oi = p_priceCents p.

Definition stock_only_down (p p' : Product) : Prop :=
  same_but_stock p p' ∧ p_stock p' ≤ p_stock p.

(** ** More requests used in the examples *)

Definition query_clothing : ListQuery :=
  mkListQuery None (Some "CLOTHING") None (Some (Js.Num 3)).
Definition query_tee_shouted : ListQuery :=
  mkListQuery (Some " TEE ") (Some "Clothing") None None.
Definition query_tee_plain : ListQuery :=
  mkListQuery (Some "tee") (Some " clothing ") None None.

(** [{ name: 'Coffee Mug!', priceCents: 899, categorySlug: 'clothing' }] and
    [{ name: 'New Tee', slug: '' }]. *)
Definition body_mug : ProductBody :=
  mkProductBody (Val "Coffee Mug!") Absent Absent (Val 899) Absent Absent (Val "clothing").
Definition body_rename : ProductBody :=
  mkProductBody (Val "New Tee") (Val EmptyString) Absent Absent Absent Absent Absent.

Definition cart_ann : CheckoutReq :=
  mkCheckoutReq (Some "Ann@Example.com") [mkCartItem "P1" 2].

Definition carol_shouted : AuthBody :=
  mkAuthBody (Some "CAROL@EXAMPLE.COM") (Some "other").

(** ** Proof automation *)

(** Unfold the handlers on a concrete store, leaving integer comparisons. *)
#[local] Ltac run_handlers :=
  with_strategy transparent [gmap_empty]
    cbv -[Z.ltb Z.leb Z.sub Z.add Z.mul Z.le Z.lt].

(** ... and decide each comparison from the hypotheses. *)
#[local] Ltac settle_checks :=
  run_handlers;
  repeat (match goal with
          | |- context [?a <? ?b] => destruct (Z.ltb_spec a b); try lia
          | |- context [?a <=? ?b] => destruct (Z.leb_spec a b); try lia
          end; run_handlers).

(** The field of [data] given by [Hd] is unset when the body's key is missing
    or null, and [apply_data] then keeps the row's value. *)
Ltac kept Hd :=
  let E := fresh "E" in
  intros E; rewrite Hd; unfold update_data; simpl; by rewrite E.

(** * Properties *)

(** ** makeSlug normalises *)

Section Slug.

Lemma az09_not_dash c : Js.is_az09 c = true → Js.is_dash c = false.
Proof.
  unfold Js.is_az09, Js.is_dash. intros Hc. apply N.eqb_neq. intros E.
  rewrite E in Hc. discriminate Hc.
Qed.

Lemma is_dash_eq c : Js.is_dash c = true → c = "-"%char.
Proof.
  unfold Js.is_dash, Js.code. intros E. apply N.eqb_eq in E.
  rewrite <- (ascii_N_embedding c), E. reflexivity.
Qed.

Lemma replace_runs_single_dashes t in_run :
  single_dashes in_run (Js.replace_runs in_run t) = true.
Proof.
  revert in_run. induction t as [|c t IH]; intros in_run; simpl; [done|].
  destruct (Js.is_az09 c) eqn:Ec; simpl.
  - rewrite Ec. apply IH.
  - destruct in_run; simpl; [apply IH|]. apply IH.
Qed.

Lemma replace_edges_inner r :
  (single_dashes false r = true → slug_from false (Js.replace_edges false r) = true) ∧
  (single_dashes true r = true → r ≠ EmptyString →
   slug_from true (Js.replace_edges false r) = true).
Proof.
  induction r as [|c r [IH1 IH2]]; [done|]. simpl.
  destruct (Js.is_az09 c) eqn:Ec.
  - rewrite (az09_not_dash _ Ec). simpl. rewrite Ec. auto.
  - split; [|by rewrite andb_false_r].
    rewrite andb_true_r. intros [Hd Hr]%andb_prop. rewrite Hd. simpl.
    destruct r as [|c' r]; [done|]. simpl Js.isEmpty. cbn [slug_from].
    rewrite Ec, Hd. simpl. by apply IH2.
Qed.

Lemma replace_edges_is_slug r :
  single_dashes false r = true → is_slug (Js.replace_edges true r) = true.
Proof.
  destruct r as [|c r]; [done|]. simpl.
  destruct (Js.is_az09 c) eqn:Ec.
  - rewrite (az09_not_dash _ Ec). simpl. rewrite Ec.
    apply replace_edges_inner.
  - rewrite andb_true_r. intros [Hd Hr]%andb_prop. rewrite Hd. simpl.
    destruct r as [|c' r]; [done|].
    destruct (replace_edges_inner (String c' r)) as [_ H2].
    unfold is_slug. rewrite H2 by done. by destruct (Js.replace_edges _ _).
Qed.

(** The slug [makeSlug] returns is normalised. *)
Lemma makeSlug_is_slug s : is_slug (makeSlug s) = true.
Proof. apply replace_edges_is_slug, replace_runs_single_dashes. Qed.

Lemma alnum_replace_runs t in_run : alnum (Js.replace_runs in_run t) = alnum t.
Proof.
  revert in_run. induction t as [|c t IH]; intros in_run; simpl; [done|].
  destruct (Js.is_az09 c) eqn:Ec; simpl.
  - by rewrite Ec, IH.
  - destruct in_run; simpl; by rewrite IH.
Qed.

Lemma alnum_replace_edges r at_start : alnum (Js.replace_edges at_start r) = alnum r.
Proof.
  revert at_start. induction r as [|c r IH]; intros at_start; simpl; [done|].
  destruct (Js.is_dash c && (at_start || Js.isEmpty r)) eqn:E.
  - apply andb_prop in E as [Hd _].
    destruct (Js.is_az09 c) eqn:Ec; [|apply IH].
    apply az09_not_dash in Ec. congruence.
  - simpl. by rewrite IH.
Qed.

(** It keeps the letters and digits of the lower-cased name, in order. *)
Lemma makeSlug_alnum s : alnum (makeSlug s) = alnum (Js.toLowerCase s).
Proof. unfold makeSlug. by rewrite alnum_replace_edges, alnum_replace_runs. Qed.

Lemma slug_from_single_dashes p s : slug_from p s = true → single_dashes p s = true.
Proof.
  revert p. induction s as [|c s IH]; intros p; simpl; [done|].
  destruct (Js.is_az09 c); [apply IH|].
  intros [Hd Hs]%andb_prop. rewrite Hd. simpl. by apply IH.
Qed.

Lemma toLowerCase_single_dashes p s : single_dashes p s = true → Js.toLowerCase s = s.
Proof.
  revert p. induction s as [|c s IH]; intros p; simpl; [done|].
  assert (Hlow : Js.is_az09 c = true ∨ Js.is_dash c = true → Js.ascii_toLowerCase c = c).
  { unfold Js.is_az09, Js.is_dash, Js.ascii_toLowerCase.
    destruct (N.leb_spec 65 (Js.code c)), (N.leb_spec (Js.code c) 90); simpl; try done.
    intros [Hc|Hc].
    - apply orb_prop in Hc as [Hc|Hc]; apply andb_prop in Hc as [H1 H2];
        apply N.leb_le in H1, H2; lia.
    - apply N.eqb_eq in Hc. lia. }
  destruct (Js.is_az09 c) eqn:Ec.
  - intros Hs. rewrite Hlow by auto. f_equal. by eapply IH.
  - intros [[Hd _]%andb_prop Hs]%andb_prop. rewrite Hlow by auto. f_equal. by eapply IH.
Qed.

Lemma replace_runs_single_dashes_id p s :
  single_dashes p s = true → Js.replace_runs p s = s.
Proof.
  revert p. induction s as [|c s IH]; intros p; simpl; [done|].
  destruct (Js.is_az09 c) eqn:Ec.
  - intros Hs. f_equal. by apply IH.
  - intros [[Hd Hp]%andb_prop Hs]%andb_prop. destruct p; [done|].
    rewrite (is_dash_eq _ Hd). f_equal. by apply IH.
Qed.

Lemma replace_edges_slug_from s :
  slug_from false s = true → Js.replace_edges false s = s.
Proof.
  induction s as [|c s IH]; simpl; [done|].
  destruct (Js.is_az09 c) eqn:Ec.
  - rewrite (az09_not_dash _ Ec). simpl. intros Hs. f_equal. by apply IH.
  - rewrite andb_true_r. intros [Hd Hs]%andb_prop. rewrite Hd. simpl.
    destruct s as [|c' s]; [done|]. simpl Js.isEmpty. cbn iota. f_equal.
    apply IH. cbn [slug_from] in *.
    destruct (Js.is_az09 c'); [done|]. by rewrite andb_false_r in Hs.
Qed.

(** It leaves a normalised slug as it is, hence normalising twice is
    normalising once. *)
Lemma makeSlug_fixed s : is_slug s = true → makeSlug s = s.
Proof.
  destruct s as [|c s]; [done|]. unfold is_slug. intros Hs. unfold makeSlug.
  pose proof (slug_from_single_dashes _ _ Hs) as Hd.
  assert (Hd' : single_dashes false (String c s) = true).
  { simpl in *. destruct (Js.is_az09 c); [done|]. by rewrite andb_false_r in Hd. }
  rewrite (toLowerCase_single_dashes _ _ Hd), (replace_runs_single_dashes_id _ _ Hd').
  simpl in *. destruct (Js.is_az09 c) eqn:Ec; [|by rewrite andb_false_r in Hs].
  rewrite (az09_not_dash _ Ec). simpl. f_equal. by apply replace_edges_slug_from.
Qed.

Lemma makeSlug_idempotent s : makeSlug (makeSlug s) = makeSlug s.
Proof. apply makeSlug_fixed, makeSlug_is_slug. Qed.

End Slug.

(** ** Checkout *)

Section CheckoutFacts.
Context `{Collaborators}.

Lemma find_id_Some (ps : list Product) id p :
  List.find (λ p, eqb_id (p_id p) id) ps = Some p → p ∈ ps ∧ p_id p = id.
Proof.
  intros Hf. apply find_some in Hf as [Hin Heq].
  split; [by apply list_elem_of_In|].
  unfold eqb_id in Heq. by apply bool_decide_eq_true in Heq.
Qed.

Lemma find_id_None (ps : list Product) id :
  List.find (λ p, eqb_id (p_id p) id) ps = None ↔ id ∉ p_id <$> ps.
Proof.
  induction ps as [|p ps IH]; simpl.
  - split; [intros _; apply not_elem_of_nil|done].
  - unfold eqb_id at 1. case_bool_decide as Hp.
    + split; [done|]. intros Hn. exfalso. apply Hn. rewrite <- Hp. apply list_elem_of_here.
    + rewrite IH, not_elem_of_cons. split; [by intros ?; split; [congruence|]|by intros [_ ?]].
Qed.

Lemma find_id_snoc (ps : list Product) p id :
  List.find (λ p, eqb_id (p_id p) id) (ps ++ [p]) =
  match List.find (λ p, eqb_id (p_id p) id) ps with
  | Some q => Some q
  | None => if eqb_id (p_id p) id then Some p else None
  end.
Proof.
  induction ps as [|q ps IH]; simpl; [done|].
  destruct (eqb_id (p_id q) id); [done|apply IH].
Qed.

(** With the ids of the rows distinct, the handler's [Map] finds the row the
    store's unique lookup finds. *)
Lemma product_map_lookup (ps : list Product) id :
  NoDup (p_id <$> ps) →
  product_map ps !! id = List.find (λ p, eqb_id (p_id p) id) ps.
Proof.
  unfold product_map.
  induction ps as [|p ps IH] using rev_ind; intros Hnd; [done|].
  rewrite fmap_app in Hnd. apply NoDup_app in Hnd as (Hnd & Hdisj & _).
  rewrite foldl_snoc, find_id_snoc. unfold eqb_id at 2.
  case_bool_decide as Hp.
  - subst id. rewrite lookup_insert_eq.
    destruct (List.find _ ps) as [q|] eqn:Hq; [|done].
    apply find_id_Some in Hq as [Hin Hid]. exfalso.
    apply (Hdisj (p_id p)); [|simpl; apply list_elem_of_here].
    rewrite <- Hid. by apply list_elem_of_fmap_2.
  - rewrite lookup_insert_ne by done. rewrite IH by done.
    by destruct (List.find _ ps).
Qed.

Lemma find_id_filter (P : Product → Prop) `{∀ p, Decision (P p)} (ps : list Product) id :
  List.find (λ p, eqb_id (p_id p) id) (filter P ps) =
  match List.find (λ p, eqb_id (p_id p) id) ps with
  | Some p => if decide (P p) then Some p else
                List.find (λ p, eqb_id (p_id p) id) (filter P ps)
  | None => None
  end.
Proof.
  induction ps as [|q ps IH]; [done|].
  rewrite filter_cons. simpl. destruct (decide (P q)) as [HP|HP]; simpl.
  - destruct (eqb_id (p_id q) id) eqn:E; [by rewrite decide_True|].
    apply IH.
  - destruct (eqb_id (p_id q) id) eqn:E; [by rewrite decide_False|].
    apply IH.
Qed.

Lemma snapshot_lookup (db : DB) (ids : list Id) id :
  NoDup (p_id <$> products db) → id ∈ ids →
  product_map (product_findMany_in ids db) !! id = product_findUnique_id id db.
Proof.
  intros Hnd Hin. unfold product_findMany_in, product_findUnique_id.
  rewrite product_map_lookup.
  - rewrite find_id_filter.
    destruct (List.find _ (products db)) as [p|] eqn:Hp; [|done].
    apply find_id_Some in Hp as [_ Hid]. rewrite decide_True; [done|by rewrite Hid].
  - clear Hin. induction (products db) as [|q ps IH]; [constructor|].
    rewrite filter_cons. simpl in Hnd. apply NoDup_cons in Hnd as [Hq Hnd].
    destruct (decide _); [|by apply IH].
    simpl. apply NoDup_cons. split; [|by apply IH].
    intros Hq'. apply Hq. apply list_elem_of_fmap in Hq' as (y & Hy & Hy').
    apply list_elem_of_fmap. exists y. split; [done|].
    by apply list_elem_of_filter in Hy' as [_ ?].
Qed.

Lemma find_id_unique (ps : list Product) p :
  NoDup (p_id <$> ps) → p ∈ ps →
  List.find (λ q, eqb_id (p_id q) (p_id p)) ps = Some p.
Proof.
  induction ps as [|q ps IH]; intros Hnd Hin; [by apply elem_of_nil in Hin|].
  simpl in *. apply NoDup_cons in Hnd as [Hq Hnd]. unfold eqb_id at 1.
  apply elem_of_cons in Hin as [->|Hin].
  - by rewrite bool_decide_eq_true_2.
  - rewrite bool_decide_eq_false_2; [by apply IH|].
    intros Heq. apply Hq. rewrite Heq. by apply list_elem_of_fmap_2.
Qed.

End CheckoutFacts.

Section CheckoutProofs.
Context `{Collaborators}.

Lemma acceptable_or_violation db i :
  Acceptable db i ∨ ∃ msg, Violation db i msg.
Proof.
  destruct (decide (productId i ∈ p_id <$> products db)) as [Hin|Hin].
  - apply list_elem_of_fmap in Hin as (p & Hid & Hp).
    destruct (Z.lt_ge_cases (quantity i) 1) as [Hq|Hq].
    { right. eexists. by eapply InvalidQuantity. }
    destruct (Z.lt_ge_cases (p_stock p) (quantity i)) as [Hs|Hs].
    { right. eexists. by eapply InsufficientStock. }
    left. exists p. repeat split; done || lia.
  - right. eexists. by apply ProductNotFound.
Qed.

Lemma violation_not_acceptable db i msg :
  NoDup (p_id <$> products db) → Violation db i msg → ¬ Acceptable db i.
Proof.
  intros Hnd Hv (p & Hp & Hid & Hq).
  destruct Hv as [Hn|q Hq' Hid' Hlt|q Hq' Hid' Hge Hlt].
  - apply Hn. rewrite <- Hid. by apply list_elem_of_fmap_2.
  - lia.
  - assert (p = q) as ->; [|lia].
    pose proof (find_id_unique _ _ Hnd Hp) as E1.
    pose proof (find_id_unique _ _ Hnd Hq') as E2.
    rewrite Hid in E1. rewrite Hid' in E2. congruence.
Qed.

(** One turn of the validation loop, against the specification. *)
Lemma validate_cons_acceptable (m : gmap Id Product) db i rest :
  NoDup (p_id <$> products db) →
  m !! productId i = product_findUnique_id (productId i) db →
  Acceptable db i → validate m (i :: rest) = validate m rest.
Proof.
  intros Hnd Hm (p & Hp & Hid & Hq). simpl. rewrite Hm.
  pose proof (find_id_unique _ _ Hnd Hp) as E. rewrite Hid in E.
  unfold product_findUnique_id. rewrite E.
  destruct (Z.ltb_spec (quantity i) 1); [lia|].
  destruct (Z.ltb_spec (p_stock p) (quantity i)); [lia|done].
Qed.

Lemma validate_cons_violation (m : gmap Id Product) db i rest msg :
  NoDup (p_id <$> products db) →
  m !! productId i = product_findUnique_id (productId i) db →
  Violation db i msg → validate m (i :: rest) = Some (error_json 400 msg).
Proof.
  intros Hnd Hm Hv. simpl. rewrite Hm. unfold product_findUnique_id.
  destruct Hv as [Hn|p Hp Hid Hlt|p Hp Hid Hge Hlt].
  - apply find_id_None in Hn. by rewrite Hn.
  - pose proof (find_id_unique _ _ Hnd Hp) as E. rewrite Hid in E. rewrite E.
    destruct (Z.ltb_spec (quantity i) 1); [done|lia].
  - pose proof (find_id_unique _ _ Hnd Hp) as E. rewrite Hid in E. rewrite E.
    destruct (Z.ltb_spec (quantity i) 1); [lia|].
    destruct (Z.ltb_spec (p_stock p) (quantity i)); [done|lia].
Qed.

Lemma validate_first_violation (m : gmap Id Product) db pre i post msg :
  NoDup (p_id <$> products db) →
  (∀ j, j ∈ pre ++ i :: post →
        m !! productId j = product_findUnique_id (productId j) db) →
  Forall (Acceptable db) pre → Violation db i msg →
  validate m (pre ++ i :: post) = Some (error_json 400 msg).
Proof.
  intros Hnd Hm Hpre Hv. induction Hpre as [|j pre Hj Hpre IH]; simpl app.
  - eapply validate_cons_violation; eauto. apply Hm. simpl. apply list_elem_of_here.
  - erewrite validate_cons_acceptable; eauto.
    + apply IH. intros k Hk. apply Hm. simpl. by apply list_elem_of_further.
    + apply Hm. simpl. apply list_elem_of_here.
Qed.

Lemma validate_all_acceptable (m : gmap Id Product) db items :
  NoDup (p_id <$> products db) →
  (∀ j, j ∈ items → m !! productId j = product_findUnique_id (productId j) db) →
  validate m items = None ↔ Forall (Acceptable db) items.
Proof.
  intros Hnd. induction items as [|i rest IH]; intros Hm.
  - split; [constructor|done].
  - assert (Hi : m !! productId i = product_findUnique_id (productId i) db)
      by (apply Hm, list_elem_of_here).
    assert (Hrest : ∀ j, j ∈ rest →
                    m !! productId j = product_findUnique_id (productId j) db)
      by (intros j Hj; by apply Hm, list_elem_of_further).
    destruct (acceptable_or_violation db i) as [Ha|[msg Hv]].
    + rewrite (validate_cons_acceptable _ _ _ _ Hnd Hi Ha), (IH Hrest).
      split; [by constructor|by inversion 1].
    + rewrite (validate_cons_violation _ _ _ _ _ Hnd Hi Hv).
      split; [done|]. inversion 1; subst.
      by eapply violation_not_acceptable in Hv.
Qed.

Lemma validate_status (m : gmap Id Product) items r :
  validate m items = Some r → status r = 400.
Proof.
  induction items as [|i rest IH]; simpl; [done|].
  destruct (m !! productId i) as [p|]; [|by intros [= <-]].
  destruct (quantity i <? 1); [by intros [= <-]|].
  destruct (p_stock p <? quantity i); [by intros [= <-]|done].
Qed.

Lemma acceptable_known db i : Acceptable db i → Known db i.
Proof.
  intros (p & Hp & Hid & _). unfold Known. rewrite <- Hid.
  by apply list_elem_of_fmap_2.
Qed.

Lemma known_find db i :
  Known db i →
  ∃ q, product_findUnique_id (productId i) db = Some q ∧ p_id q = productId i.
Proof.
  intros Hk. unfold product_findUnique_id.
  destruct (List.find _ (products db)) as [q|] eqn:Hq.
  - exists q. split; [done|]. by apply find_id_Some in Hq as [_ ?].
  - by apply find_id_None in Hq.
Qed.

Lemma totalCents_of_acc (m : gmap Id Product) db items a :
  (∀ j, j ∈ items → m !! productId j = product_findUnique_id (productId j) db) →
  Forall (Known db) items →
  foldl (λ sum i,
           s ← sum; p ← m !! productId i; Some (s + p_priceCents p * quantity i))
        (Some a) items = Some (a + cart_total db items).
Proof.
  revert a. induction items as [|i rest IH]; intros a Hm Hk; simpl.
  - f_equal. lia.
  - apply Forall_cons in Hk as [Hi Hk].
    rewrite (Hm i) by apply list_elem_of_here.
    destruct (known_find _ _ Hi) as (q & Hq & _).
    unfold unit_price. rewrite Hq. simpl.
    rewrite IH; [f_equal; lia| |done].
    intros j Hj. by apply Hm, list_elem_of_further.
Qed.

Lemma set_stock_ext f g p :
  f (p_stock p) = g (p_stock p) → set_stock f p = set_stock g p.
Proof. intros E. destruct p. unfold set_stock. simpl in *. by rewrite E. Qed.

Lemma set_stock_0 p : set_stock (λ s, s - 0) p = p.
Proof. destruct p. unfold set_stock. simpl. f_equal. lia. Qed.




(** The loop of the transaction, run on the store [db1] with the [Map] read
    from [db0]: every line adds its order item, at the price read from [db0],
    and takes its quantity from the stock its product has in [db1]. *)
Lemma tx_items_effect created (m : gmap Id Product) db0 items :
  ∀ db1 db2,
  (∀ j, j ∈ items → m !! productId j = product_findUnique_id (productId j) db0) →
  Forall (Known db0) items →
  tx_items created m items db1 = Some db2 →
  ∃ newItems,
    db2 = mkDB ((λ p, set_stock (λ s, s - requested (p_id p) items) p) <$> products db1)
               (categories db1) (users db1) (orders db1)
               (orderItems db1 ++ newItems) ∧
    line_of <$> newItems =
      (λ i, (o_id created, productId i, quantity i, unit_price db0 (productId i))) <$> items.
Proof.
  induction items as [|i rest IH]; intros [ps cs us os ois] db2 Hm Hk Hrun; simpl in *.
  - simplify_eq. exists []. split; [|done]. rewrite app_nil_r. f_equal.
    rewrite <- (list_fmap_id ps) at 1. apply list_fmap_ext.
    intros _ p _. simpl. by rewrite set_stock_0.
  - apply Forall_cons in Hk as [Hi Hk].
    destruct (known_find _ _ Hi) as (q & Hq & Hqid).
    rewrite (Hm i) in Hrun by apply list_elem_of_here. rewrite Hq in Hrun.
    simpl in Hrun. unfold orderItem_create in Hrun.
    destruct (is_int (quantity i) && is_int (p_priceCents q)); [|done].
    simpl in Hrun. unfold product_decrement_stock in Hrun.
    destruct (product_findUnique_id _ _) as [p1|]; [|done].
    destruct (is_int (quantity i) && is_int (p_stock p1 - quantity i)); [|done].
    simpl in Hrun.
    apply IH in Hrun as (newItems & -> & Hlines); [| |exact Hk].
    2:{ intros j Hj. by apply Hm, list_elem_of_further. }
    eexists (_ :: newItems). simpl. split.
    + rewrite <- app_assoc. simpl. f_equal.
      rewrite <- list_fmap_compose. apply list_fmap_ext. intros _ p _. simpl.
      rewrite Hqid. unfold eqb_id.
      case_bool_decide as E1; case_bool_decide as E2; try congruence.
      * destruct p; unfold set_stock; simpl in *. f_equal. lia.
      * apply set_stock_ext. lia.
    + cbn [fmap list_fmap]. f_equal; [|exact Hlines].
      unfold line_of, unit_price. simpl. by rewrite Hq, Hqid.
Qed.

Lemma items_lookup req db :
  NoDup (p_id <$> products db) →
  ∀ j, j ∈ items req →
    product_map (product_findMany_in (productId <$> items req) db) !! productId j
    = product_findUnique_id (productId j) db.
Proof.
  intros Hnd j Hj. apply snapshot_lookup; [done|]. by apply list_elem_of_fmap_2.
Qed.

Lemma first_violation db items :
  ¬ Forall (Acceptable db) items →
  ∃ pre i post msg,
    items = pre ++ i :: post ∧ Forall (Acceptable db) pre ∧ Violation db i msg.
Proof.
  induction items as [|i rest IH]; intros Hn.
  - exfalso. apply Hn. constructor.
  - destruct (acceptable_or_violation db i) as [Ha|[msg Hv]].
    + destruct IH as (pre & j & post & msg & -> & Hpre & Hv).
      { intros Hrest. apply Hn. by constructor. }
      exists (i :: pre), j, post, msg. repeat split; [by constructor|done].
    + exists [], i, rest, msg. repeat split; [constructor|done].
Qed.

Lemma all_acceptable_or_not db items :
  NoDup (p_id <$> products db) →
  Forall (Acceptable db) items ∨ ¬ Forall (Acceptable db) items.
Proof.
  intros Hnd. induction items as [|i rest [IH|IH]].
  - left. constructor.
  - destruct (acceptable_or_violation db i) as [Ha|[msg Hv]].
    + left. by constructor.
    + right. inversion 1; subst. by eapply violation_not_acceptable in Hv.
  - right. by inversion 1.
Qed.

(** The handler's two outcomes, read off its code. *)
Lemma checkout_validate_inl req db pre i post msg :
  NoDup (p_id <$> products db) →
  items req = pre ++ i :: post →
  Forall (Acceptable db) pre → Violation db i msg →
  checkout_validate req db = inl (error_json 400 msg).
Proof.
  intros Hnd Hitems Hpre Hv. unfold checkout_validate.
  pose proof (items_lookup req db Hnd) as Hm. rewrite Hitems in *.
  rewrite (validate_first_violation _ db pre i post msg); try done.
  by destruct pre.
Qed.

Lemma checkout_validate_inr req db :
  NoDup (p_id <$> products db) →
  items req ≠ [] → Forall (Acceptable db) (items req) →
  checkout_validate req db =
    inr (mkPending (email req) (items req)
           (product_map (product_findMany_in (productId <$> items req) db))
           (cart_total db (items req))).
Proof.
  intros Hnd Hne Hacc. unfold checkout_validate.
  pose proof (items_lookup req db Hnd) as Hm.
  destruct (items req) as [|i0 rest] eqn:Hitems; [done|].
  rewrite (proj2 (validate_all_acceptable _ db _ Hnd Hm) Hacc).
  unfold totalCents_of. rewrite (totalCents_of_acc _ db); [done|done|].
  eapply Forall_impl; [exact Hacc|]. apply acceptable_known.
Qed.


(** The transaction either commits and the handler answers 200, or it throws,
    is rolled back, and the handler answers 500. *)
Lemma checkout_commit_outcome pd db :
  status (checkout_commit pd db).1 = 200 ∨
  checkout_commit pd db = (error_json 500 "Checkout failed", db).
Proof.
  unfold checkout_commit. destruct (checkout_tx pd db) as [[o db']|]; [by left|by right].
Qed.

(** A request validated on the store [db0] whose transaction commits on the
    store [db1]. *)
Lemma checkout_commit_effect req db0 db1 r db' :
  NoDup (p_id <$> products db0) →
  Forall (Acceptable db0) (items req) →
  checkout_commit
    (mkPending (email req) (items req)
       (product_map (product_findMany_in (productId <$> items req) db0))
       (cart_total db0 (items req))) db1 = (r, db') →
  status r = 200 →
  ∃ orderId newItems,
    r = json (CheckoutBody orderId (cart_total db0 (items req))) ∧
    db' = mkDB ((λ p, set_stock (λ s, s - requested (p_id p) (items req)) p)
                  <$> products db1)
               (categories db1) (users db1)
               (orders db1 ++ [mkOrder orderId (order_email (email req))
                                       (cart_total db0 (items req))])
               (orderItems db1 ++ newItems) ∧
    line_of <$> newItems =
      (λ i, (orderId, productId i, quantity i, unit_price db0 (productId i)))
        <$> items req.
Proof.
  intros Hnd Hacc Hrun Hok. unfold checkout_commit, checkout_tx, order_create in Hrun.
  cbn [pd_email pd_totalCents pd_items pd_map] in Hrun.
  destruct (is_int (cart_total db0 (items req))); cbn [mbind option_bind] in Hrun;
    [|by simplify_eq].
  set (created := mkOrder _ _ _) in Hrun.
  destruct (tx_items created _ _ _) as [db2|] eqn:Htx; cbn [mbind option_bind] in Hrun;
    [|by simplify_eq].
  apply (tx_items_effect created _ db0) in Htx as (newItems & -> & Hlines).
  - simplify_eq. by exists (o_id created), newItems.
  - by apply items_lookup.
  - eapply Forall_impl; [exact Hacc|]. apply acceptable_known.
Qed.


(** C3.  The preconditions of a checkout are checked before any mutation and
    the first failure aborts with no partial effect: an empty cart, or a
    first line that violates a precondition after lines that pass, is answered
    with 400 and that line's message and leaves the store as it was; a cart
    with an unknown productId is rejected with the store unchanged (no Order,
    no OrderItem, no stock change); and whenever the store did change, every
    precondition held. *)
Theorem checkout_preconditions_before_mutation (req : CheckoutReq) (db : DB) :
  NoDup (p_id <$> products db) →
  (items req = [] → checkout req db = (error_json 400 "No items", db)) ∧
  (∀ pre i post msg,
     items req = pre ++ i :: post →
     Forall (Acceptable db) pre → Violation db i msg →
     checkout req db = (error_json 400 msg, db)) ∧
  (∀ i, i ∈ items req → productId i ∉ p_id <$> products db →
     ∃ msg, checkout req db = (error_json 400 msg, db)) ∧
  (∀ r db', checkout req db = (r, db') → db' ≠ db →
     items req ≠ [] ∧ Forall (Acceptable db) (items req) ∧ status r = 200).
Proof.
  intros Hnd.
  assert (Hfirst : ∀ pre i post msg,
            items req = pre ++ i :: post →
            Forall (Acceptable db) pre → Violation db i msg →
            checkout req db = (error_json 400 msg, db)).
  { intros pre i post msg Hitems Hpre Hv. unfold checkout.
    by rewrite (checkout_validate_inl req db pre i post msg). }
  assert (Hbad : ¬ Forall (Acceptable db) (items req) →
                 ∃ msg, checkout req db = (error_json 400 msg, db)).
  { intros Hn. apply first_violation in Hn as (pre & j & post & msg & E & Hpre & Hv).
    exists msg. by eapply Hfirst. }
  assert (Hempty : items req = [] → checkout req db = (error_json 400 "No items", db)).
  { intros E. unfold checkout, checkout_validate. by rewrite E. }
  repeat split; try done.
  - intros i Hi Hunknown. apply Hbad. intros Hall.
    rewrite Forall_forall in Hall. apply Hall, acceptable_known in Hi. done.
  - intros E. apply Hempty in E. congruence.
  - destruct (all_acceptable_or_not db (items req) Hnd) as [|Hn]; [done|].
    destruct (Hbad Hn) as [msg E]. congruence.
  - destruct (decide (items req = [])) as [E|Hne].
    { apply Hempty in E. congruence. }
    destruct (all_acceptable_or_not db (items req) Hnd) as [Hacc|Hn].
    2:{ destruct (Hbad Hn) as [msg E]. congruence. }
    unfold checkout in *. rewrite checkout_validate_inr in * by done.
    match goal with
    | Hrun : checkout_commit ?pd db = _ |- _ =>
        destruct (checkout_commit_outcome pd db) as [Hok|E]; rewrite Hrun in *
    end; [done|by simplify_eq].
Qed.




Lemma requested_unknown id items :
  id ∉ productId <$> items → requested id items = 0.
Proof.
  induction items as [|i rest IH]; simpl; [done|].
  intros [Hi Hrest]%not_elem_of_cons. unfold eqb_id.
  rewrite bool_decide_eq_false_2 by congruence. rewrite IH by done. lia.
Qed.

Lemma requested_within_stock db items p :
  NoDup (p_id <$> products db) → NoDup (productId <$> items) →
  Forall (Acceptable db) items → p ∈ products db →
  requested (p_id p) items = 0 ∨ requested (p_id p) items ≤ p_stock p.
Proof.
  intros Hnd Hlines Hacc Hp.
  induction items as [|i rest IH]; simpl in *; [by left|].
  apply NoDup_cons in Hlines as [Hi Hlines].
  apply Forall_cons in Hacc as [(q & Hq & Hid & Hqty) Hacc].
  unfold eqb_id. case_bool_decide as E.
  - right. rewrite requested_unknown by (by rewrite <- E).
    assert (q = p) as ->; [|lia].
    pose proof (find_id_unique _ _ Hnd Hq) as E1.
    pose proof (find_id_unique _ _ Hnd Hp) as E2.
    rewrite Hid, E in E1. congruence.
  - destruct (IH Hlines Hacc) as [->|Hle]; [by left|right; lia].
Qed.

(** X7.  Where the stock invariant does hold: a checkout, run with no other
    request in between, whose cart names every product at most once, leaves
    no stock negative on a store that had none. *)
Lemma checkout_distinct_lines_keep_stock (req : CheckoutReq) (db db' : DB)
    (r : Response Token) :
  NoDup (p_id <$> products db) → NoDup (productId <$> items req) →
  Forall (λ p, 0 ≤ p_stock p) (products db) →
  checkout req db = (r, db') →
  Forall (λ p, 0 ≤ p_stock p) (products db').
Proof.
  intros Hnd Hlines Hpos Hrun.
  destruct (decide (items req = [])) as [E|Hne].
  { unfold checkout, checkout_validate in Hrun. rewrite E in Hrun. by simplify_eq. }
  destruct (all_acceptable_or_not db (items req) Hnd) as [Hacc|Hn].
  - unfold checkout in Hrun. rewrite checkout_validate_inr in Hrun by done.
    match type of Hrun with
    | checkout_commit ?pd db = _ =>
        destruct (checkout_commit_outcome pd db) as [Hok|E]; rewrite Hrun in *
    end; [|by simplify_eq].
    destruct (checkout_commit_effect req db db r db' Hnd Hacc Hrun Hok)
      as (oid & new & _ & -> & _). simpl.
    rewrite Forall_fmap. rewrite Forall_forall in Hpos. apply Forall_forall.
    intros p Hp. simpl. specialize (Hpos p Hp). simpl in Hpos.
    destruct (requested_within_stock db (items req) p Hnd Hlines Hacc Hp); lia.
  - apply first_violation in Hn as (pre & j & post & msg & E & Hpre & Hv).
    unfold checkout in Hrun.
    rewrite (checkout_validate_inl req db pre j post msg) in Hrun by done.
    by simplify_eq.
Qed.

End CheckoutProofs.

(** *** Checkouts on the one-product store *)

(** The specification's example: two units of P1 at 1000, five in stock. *)
Example checkout_two_of_five :
  ∀ H : Collaborators,
  ∃ orderId db',
    checkout cart_2 shop = (json (CheckoutBody orderId 2000), db') ∧
    stocks db' = [("P1", 3)] ∧
    o_totalCents <$> orders db' = [2000] ∧
    line_of <$> orderItems db' = [(orderId, "P1", 2, 1000)].
Proof. intros H. eexists _, _. repeat split. Qed.

(** The same cart, validated while P1 costs 1000 and committed after the
    price went to 1500 and the stock to 4: the order and its item carry the
    price that was read, 1000, and the stock goes from 4 to 2. *)
Example checkout_price_snapshot :
  ∀ H : Collaborators,
  ∃ pd orderId db',
    checkout_validate cart_2 shop = inr pd ∧
    checkout_commit pd shop_repriced = (json (CheckoutBody orderId 2000), db') ∧
    stocks db' = [("P1", 2)] ∧
    o_totalCents <$> orders db' = [2000] ∧
    line_of <$> orderItems db' = [(orderId, "P1", 2, 1000)] ∧
    p_priceCents <$> products db' = [1500].
Proof. intros H. eexists _, _, _. repeat split. Qed.

(** Two checkouts of [Q] units against a stock [S] with [Q ≤ S < 2Q], one
    after the other: the first is served and the second is refused for lack
    of stock.  ([Q] is such that the total, 1000 × [Q], fits its column.) *)
Lemma serial_checkouts_refuse_second (H : Collaborators) (S Q : Z) :
  1 ≤ Q ≤ S → S < 2 * Q → Q ≤ 2000000 →
  let '(a, b, db) :=
    run serial (Arrived (cart_of Q)) (Arrived (cart_of Q)) (shop_with S) in
  succeeded a = true ∧
  b = Finished (error_json 400 "Not enough stock for Basic Tee") ∧
  stocks db = [("P1", S - Q)].
Proof. intros HQ HS HQ'. settle_checks. auto. Qed.

(** The same two checkouts when both have read the stock before either
    commits: both are served and the stock ends at [S - 2Q], below zero. *)
Lemma interleaved_checkouts_oversell (H : Collaborators) (S Q : Z) :
  1 ≤ Q ≤ S → S < 2 * Q → Q ≤ 2000000 →
  let '(a, b, db) :=
    run interleaved (Arrived (cart_of Q)) (Arrived (cart_of Q)) (shop_with S) in
  succeeded a = true ∧ succeeded b = true ∧
  stocks db = [("P1", S - Q - Q)] ∧ S - Q - Q < 0.
Proof. intros HQ HS HQ'. settle_checks. repeat split. lia. Qed.

(** C1 fails on the code.  Two checkouts of Q = 3 units of one product with
    stock S = 5 < 2Q, the second reading the products before the first
    commits: both succeed, neither is refused for insufficient stock, and the
    stock ends at -1.  The stock check is made on the handler's earlier read,
    outside the transaction that decrements. *)
Theorem interleaved_checkouts_both_succeed :
  ∀ H : Collaborators,
  let '(a, b, db) := run interleaved (Arrived cart_3) (Arrived cart_3) shop in
  succeeded a = true ∧ succeeded b = true ∧ stocks db = [("P1", -1)].
Proof. intros H. vm_compute. auto. Qed.

(** C2 fails on the code.  One checkout whose cart names P1 in two lines of
    3 units, with 5 in stock: each line passes the stock check against the
    same read, the checkout succeeds, and the stock of P1 ends at -1. *)
Theorem checkout_repeated_product_oversells :
  ∀ H : Collaborators,
  ∃ orderId db',
    checkout cart_3_3 shop = (json (CheckoutBody orderId 6000), db') ∧
    stocks db' = [("P1", -1)].
Proof. intros H. eexists _, _. split; reflexivity. Qed.

Lemma checkout_preconditions_before_mutation_witness :
  NoDup (p_id <$> products shop) ∧
  checkout (H := demo) cart_unknown shop
    = (error_json 400 "Product not found: P9", shop).
Proof.
  split; [apply NoDup_singleton|].
  destruct (checkout_preconditions_before_mutation (H := demo) cart_unknown shop)
    as (_ & Hfirst & _); [apply NoDup_singleton|].
  apply (Hfirst [mkCartItem "P1" 1] (mkCartItem "P9" 1) []); [reflexivity| |].
  - apply Forall_singleton.
    exists (mkProduct "P1" "Basic Tee" "basic-tee" "Soft cotton tee" 1000 None 5 "c1" 0).
    split; [apply list_elem_of_here|]. simpl. split; [reflexivity|lia].
  - apply (ProductNotFound shop (mkCartItem "P9" 1)). simpl.
    apply not_elem_of_cons. split; [discriminate|apply not_elem_of_nil].
Defined.


(** ** Catalog *)

Section CatalogProofs.
Context `{Collaborators}.

Lemma insert_desc_sorted p l :
  StronglySorted newer_first l → StronglySorted newer_first (insert_desc p l).
Proof.
  induction 1 as [|x l Hl IH Hx]; simpl.
  - repeat constructor.
  - destruct (Z.ltb_spec (p_createdAt x) (p_createdAt p)) as [Hlt|Hge].
    + constructor; [by constructor|]. constructor; [unfold newer_first; lia|].
      eapply Forall_impl; [exact Hx|]. unfold newer_first. intros; lia.
    + constructor; [done|].
      assert (Hins : ∀ l', Forall (newer_first x) l' →
                           Forall (newer_first x) (insert_desc p l')).
      { clear -Hge. induction 1 as [|y l' Hy Hl' IH']; simpl.
        - by repeat constructor.
        - destruct (p_createdAt y <? p_createdAt p); by repeat constructor. }
      by apply Hins.
Qed.

Lemma sort_desc_sorted l : StronglySorted newer_first (sort_desc l).
Proof.
  induction l as [|p l IH]; simpl; [constructor|by apply insert_desc_sorted].
Qed.

Lemma insert_desc_perm p l : insert_desc p l ≡ₚ p :: l.
Proof.
  induction l as [|x l IH]; simpl; [done|].
  destruct (p_createdAt x <? p_createdAt p); [done|].
  rewrite IH. apply Permutation_swap.
Qed.

Lemma sort_desc_perm l : sort_desc l ≡ₚ l.
Proof.
  induction l as [|p l IH]; simpl; [done|]. by rewrite insert_desc_perm, IH.
Qed.

Lemma StronglySorted_drop {A} (R : relation A) n (l : list A) :
  StronglySorted R l → StronglySorted R (drop n l).
Proof.
  intros Hl. revert n. induction Hl as [|x l Hl IH Hx]; intros [|n]; simpl;
    try constructor; auto.
Qed.

Lemma StronglySorted_take {A} (R : relation A) n (l : list A) :
  StronglySorted R l → StronglySorted R (take n l).
Proof.
  intros Hl. revert n. induction Hl as [|x l Hl IH Hx]; intros [|n]; simpl;
    try constructor; auto.
  by apply Forall_take.
Qed.

Lemma limit_of_numeric query :
  numeric (query_limit query) →
  limit_of query =
    Js.Num (Z.min 24 (Z.max 1 (match query_limit query with
                                | Some (Js.Num z) => z
                                | _ => 9
                                end))).
Proof.
  unfold numeric, limit_of. by destruct (query_limit query) as [[|z]|].
Qed.

Lemma page_of_numeric query :
  numeric (query_page query) →
  page_of query =
    Js.Num (Z.max 1 (match query_page query with
                     | Some (Js.Num z) => z
                     | _ => 1
                     end)).
Proof.
  unfold numeric, page_of. by destruct (query_page query) as [[|z]|].
Qed.

Lemma ceil_div_least (t l : Z) :
  0 ≤ t → 0 < l →
  let pc := Z.max 1 (- (- t / l)) in
  1 ≤ pc ∧ t ≤ pc * l ∧ (pc = 1 ∨ (pc - 1) * l < t).
Proof.
  intros Ht Hl. simpl.
  pose proof (Z.mul_div_le (- t) l Hl).
  pose proof (Z.mul_succ_div_gt (- t) l Hl).
  nia.
Qed.

(** C5 (amended).  For every product-list query whose [page] and [limit]
    parameters are missing or numbers, the handler answers with a page where
    [limit] is the requested limit (9 when missing) clamped to [1, 24], the
    page has at most [limit] items, [pageCount] is max(1, ceil(total/limit)),
    the least count of pages of [limit] items that holds [total] and at
    least 1, and the items are in descending order of creation time. *)
Theorem listProducts_page (query : ListQuery) (db : DB) :
  numeric (query_page query) → numeric (query_limit query) →
  ∃ items page limit total pageCount,
    listProducts query db =
      Some (json (PageBody items (Js.Num page) (Js.Num limit) total (Js.Num pageCount))) ∧
    limit = Z.min 24 (Z.max 1 (match query_limit query with
                               | Some (Js.Num z) => z
                               | _ => 9
                               end)) ∧
    1 ≤ limit ≤ 24 ∧
    (query_limit query = None → limit = 9) ∧
    Z.of_nat (length items) ≤ limit ∧
    pageCount = Z.max 1 (- (- total / limit)) ∧
    1 ≤ pageCount ∧ total ≤ pageCount * limit ∧
    (pageCount = 1 ∨ (pageCount - 1) * limit < total) ∧
    StronglySorted newer_first (fst <$> items).
Proof.
  intros Hpage Hlimit. unfold listProducts.
  rewrite (page_of_numeric _ Hpage), (limit_of_numeric _ Hlimit).
  set (page := Z.max 1 _). set (limit := Z.min 24 _).
  set (w := build_where _ _).
  assert (Hl : 1 ≤ limit ≤ 24) by (subst limit; lia).
  assert (Hp : 1 ≤ page) by (subst page; lia).
  unfold product_findMany, Js.mul, Js.sub.
  destruct (Z.leb_spec 0 ((page - 1) * limit)); [|nia].
  destruct (Z.leb_spec 0 limit); [|lia]. simpl.
  set (rows := List.filter (matches db w) (products db)).
  assert (Ht : 0 ≤ product_count w db) by (unfold product_count; lia).
  destruct (ceil_div_least (product_count w db) limit Ht) as (Hc1 & Hc2 & Hc3); [lia|].
  eexists _, page, limit, (product_count w db), _. split; [reflexivity|].
  repeat split; try done; try lia.
  - intros E. subst limit. rewrite E. lia.
  - rewrite length_fmap, length_take. lia.
  - rewrite <- list_fmap_compose.
    erewrite (list_fmap_ext _ id); [|by intros].
    rewrite list_fmap_id.
    apply StronglySorted_take, StronglySorted_drop, sort_desc_sorted.
Qed.

End CatalogProofs.

(** The specification's example: ten products and the default limit. *)
Example catalog10_pages :
  (∃ items, listProducts (H := demo) query_default catalog10 =
              Some (json (PageBody items (Js.Num 1) (Js.Num 9) 10 (Js.Num 2))) ∧
            p_id ∘ fst <$> items = ["j"; "i"; "h"; "g"; "f"; "e"; "d"; "c"; "b"]) ∧
  (∃ items, listProducts (H := demo) query_page2 catalog10 =
              Some (json (PageBody items (Js.Num 2) (Js.Num 9) 10 (Js.Num 2))) ∧
            p_id ∘ fst <$> items = ["a"]).
Proof. split; eexists; (split; [vm_compute; reflexivity|reflexivity]). Qed.

(** The clamp misses a [limit] parameter that is not a number
    ([?limit=abc]): [Math.max] and [Math.min] pass [NaN] on, so the handler's
    [limit] is [NaN], not a value in [1, 24]. *)
Lemma listProducts_limit_NaN :
  limit_of query_limit_abc = Js.NaN ∧
  ¬ (∃ l, limit_of query_limit_abc = Js.Num l ∧ 1 ≤ l ≤ 24).
Proof.
  split; [reflexivity|]. intros (l & E & _). discriminate E.
Qed.

(** With that [limit] as [take], the store call is rejected and no page is
    returned. *)
Example listProducts_limit_NaN_unanswered :
  listProducts (H := demo) query_limit_abc catalog10 = None.
Proof. reflexivity. Qed.

Lemma listProducts_page_witness :
  numeric (query_page query_default) ∧ numeric (query_limit query_default) ∧
  ∃ items page limit total pageCount,
    listProducts (H := demo) query_default catalog10 =
      Some (json (PageBody items (Js.Num page) (Js.Num limit) total (Js.Num pageCount))) ∧
    limit = Z.min 24 (Z.max 1 (match query_limit query_default with
                               | Some (Js.Num z) => z
                               | _ => 9
                               end)) ∧
    1 ≤ limit ≤ 24 ∧
    (query_limit query_default = None → limit = 9) ∧
    Z.of_nat (length items) ≤ limit ∧
    pageCount = Z.max 1 (- (- total / limit)) ∧
    1 ≤ pageCount ∧ total ≤ pageCount * limit ∧
    (pageCount = 1 ∨ (pageCount - 1) * limit < total) ∧
    StronglySorted newer_first (fst <$> items).
Proof.
  assert (N : ∀ x : option Js.number, x = None → numeric x)
    by (intros x ->; discriminate).
  split; [by apply N|]. split; [by apply N|].
  apply (listProducts_page (H := demo) query_default catalog10); by apply N.
Defined.

(** ** Session and auth *)

Lemma prefix_append (a b : string) : String.prefix a (a +:+ b) = true.
Proof.
  induction a as [|c a IH]; simpl; [by destruct b|].
  destruct (ascii_dec c c); [exact IH|done].
Qed.

Lemma append_assoc (a b c : string) : (a +:+ b) +:+ c = a +:+ (b +:+ c).
Proof.
  induction a as [|x a IH]; [done|].
  change (String x ((a +:+ b) +:+ c) = String x (a +:+ (b +:+ c))).
  by rewrite IH.
Qed.

Lemma demo_ok : CollaboratorsOk (H := demo).
Proof.
  split; simpl.
  - intros ids. apply infinite_is_fresh.
  - intros salt pw. rewrite <- append_assoc. apply prefix_append.
  - done.
Qed.

Section AuthProofs.
Context `{Collaborators}.

Lemma find_snoc {A} (f : A → bool) (l : list A) (x : A) :
  List.find f (l ++ [x]) =
  match List.find f l with
  | Some y => Some y
  | None => if f x then Some x else None
  end.
Proof.
  induction l as [|y l IH]; simpl; [done|]. by destruct (f y).
Qed.

Lemma nonEmpty_Some x s : nonEmpty x = Some s → x = Some s.
Proof. by destruct x as [[|c x]|]; intros [= <-]. Qed.

(** X20.  Registration accepts every non-empty email and password whose
    lower-cased email no user has: it answers 200 with the new user's id, the
    lower-cased email and the role USER, sets a session cookie signed for
    that id and good for seven days, appends to the users exactly one user
    with the lower-cased email, the salted hash of the password and the role
    USER, and touches no other table. *)
Lemma register_accepts (e pw salt : string) (now : Z) (db : DB) :
  e ≠ EmptyString → pw ≠ EmptyString →
  user_findUnique_email (Js.toLowerCase e) db = None →
  ∃ r u db',
    register (mkAuthBody (Some e) (Some pw)) salt now db = (Some r, db') ∧
    status r = 200 ∧
    body r = UserBody (u_id u) (Js.toLowerCase e) USER ∧
    authCookie r = Some (jwt_encode (u_id u, now + 604800)) ∧
    users db' = users db ++ [u] ∧
    u_email u = Js.toLowerCase e ∧ u_role u = USER ∧
    u_passwordHash u = bcrypt_hash salt pw ∧
    products db' = products db ∧ categories db' = categories db ∧
    orders db' = orders db ∧ orderItems db' = orderItems db.
Proof.
  intros He Hpw Hfree. unfold register, user_create. simpl.
  destruct e as [|c e]; [done|]. destruct pw as [|c' pw]; [done|].
  cbn [nonEmpty]. rewrite Hfree. eexists _, _, _. split; [reflexivity|].
  by split_and!.
Qed.

(** C7.  A login with an email no user has and a login with a known email
    and a wrong password get one and the same response: status 400, the
    message "Invalid email or password", and no cookie. *)
Theorem login_failures_indistinguishable (db : DB) (b1 b2 : AuthBody)
    (now1 now2 : Z) (e1 e2 pw2 : string) (u : User) :
  auth_email b1 = Some e1 →
  user_findUnique_email (Js.toLowerCase e1) db = None →
  auth_email b2 = Some e2 →
  user_findUnique_email (Js.toLowerCase e2) db = Some u →
  auth_password b2 = Some pw2 →
  bcrypt_compare pw2 (u_passwordHash u) = false →
  login b1 now1 db = login b2 now2 db ∧
  login b1 now1 db = Some (error_json 400 "Invalid email or password").
Proof.
  intros E1 U1 E2 U2 Hpw Hcmp. unfold login.
  by rewrite E1, U1, E2, U2, Hpw, Hcmp.
Qed.

Lemma find_app_Some {A} (f : A → bool) (l k : list A) (x : A) :
  List.find f l = Some x → List.find f (l ++ k) = Some x.
Proof.
  induction l as [|y l IH]; simpl; [done|]. by destruct (f y).
Qed.

(** C8.  A registration that is accepted is followed by a successful login
    with the same credentials, also after further users have registered: the
    login answers 200 with the id of the user made at registration and sets
    a session cookie, and the token in that cookie resolves, while it has not
    expired, to that user record.  The registration reply carries the same
    id, and its own cookie resolves to the same user. *)
Theorem register_login_roundtrip {Hlaws : CollaboratorsOk} (b : AuthBody) (salt : string)
    (t0 t1 t2 : Z) (db db1 db2 : DB) (later : list User) (r : Response Token) :
  register b salt t0 db = (Some r, db1) → status r = 200 →
  users db2 = users db1 ++ later →
  t2 < t1 + 7 * 24 * 3600 →
  ∃ u r' token0 token,
    u ∈ users db1 ∧ (u ∉ users db) ∧
    body r = UserBody (u_id u) (u_email u) (u_role u) ∧
    authCookie r = Some token0 ∧
    login b t1 db2 = Some r' ∧
    status r' = 200 ∧
    body r' = UserBody (u_id u) (u_email u) (u_role u) ∧
    authCookie r' = Some token ∧
    readUserFromReq (Some token) t2 db2 = Some u ∧
    (t2 < t0 + 7 * 24 * 3600 → readUserFromReq (Some token0) t2 db2 = Some u).
Proof.
  intros Hreg Hok Hlater Ht. unfold register in Hreg.
  destruct (nonEmpty (auth_email b)) as [e|] eqn:Ee; [|by simplify_eq].
  destruct (nonEmpty (auth_password b)) as [pw|] eqn:Ep; [|by simplify_eq].
  apply nonEmpty_Some in Ee, Ep.
  destruct (user_findUnique_email _ db) eqn:Hfree; [by simplify_eq|].
  unfold user_create in Hreg. rewrite Hfree in Hreg. simplify_eq.
  set (email := Js.toLowerCase e) in *.
  set (u := mkUser _ _ _ _) in *. simpl in Hlater.
  assert (Hnew : u_id u ∉ u_id <$> users db) by apply newId_fresh.
  assert (Hbyemail : user_findUnique_email email db2 = Some u).
  { unfold user_findUnique_email in *. rewrite Hlater.
    apply find_app_Some. rewrite find_snoc, Hfree. simpl.
    by rewrite bool_decide_eq_true_2. }
  assert (Hbyid : user_findUnique_id (u_id u) db2 = Some u).
  { unfold user_findUnique_id. rewrite Hlater. apply find_app_Some.
    rewrite find_snoc.
    destruct (List.find _ (users db)) as [v|] eqn:Hv.
    + apply find_some in Hv as [Hin Hid]. exfalso.
      apply bool_decide_eq_true in Hid. apply Hnew. rewrite <- Hid.
      apply list_elem_of_fmap_2. by apply list_elem_of_In.
    + unfold eqb_id. by rewrite bool_decide_eq_true_2. }
  assert (Hresolve : ∀ t, t2 < t + 7 * 24 * 3600 →
            readUserFromReq (Some (signToken t (u_id u))) t2 db2 = Some u).
  { intros t Hlt. unfold readUserFromReq, jwt_verify, signToken.
    rewrite jwt_decode_encode.
    by destruct (Z.ltb_spec t2 (t + 7 * 24 * 3600)); [|lia]. }
  assert (Hlogin : login b t1 db2 = Some (user_json (Some (signToken t1 (u_id u))) u)).
  { unfold login. rewrite Ee. fold email. rewrite Hbyemail, Ep. simpl.
    by rewrite bcrypt_compare_hash. }
  eexists u, _, _, _. split_and!; [| |reflexivity|reflexivity|exact Hlogin
                                   |reflexivity|reflexivity|reflexivity| |].
  - simpl. apply elem_of_app. right. apply list_elem_of_here.
  - intros Hin. apply Hnew. by apply list_elem_of_fmap_2.
  - by apply Hresolve.
  - apply Hresolve.
Qed.

End AuthProofs.

Lemma login_failures_indistinguishable_witness :
  auth_email bob_unknown = Some "bob@example.com" ∧
  user_findUnique_email (Js.toLowerCase "bob@example.com") seeded = None ∧
  auth_email ann_wrong = Some "Ann@Example.com" ∧
  user_findUnique_email (Js.toLowerCase "Ann@Example.com") seeded
    = Some (mkUser "u1" "ann@example.com" "secret$salt" USER) ∧
  auth_password ann_wrong = Some "guess" ∧
  bcrypt_compare (Collaborators := demo) "guess" "secret$salt" = false ∧
  login (H := demo) bob_unknown 0 seeded = login (H := demo) ann_wrong 0 seeded ∧
  login (H := demo) bob_unknown 0 seeded
    = Some (error_json 400 "Invalid email or password").
Proof.
  do 6 (split; [reflexivity|]).
  apply (login_failures_indistinguishable (H := demo) seeded bob_unknown ann_wrong 0 0
           "bob@example.com" "Ann@Example.com" "guess"
           (mkUser "u1" "ann@example.com" "secret$salt" USER)); reflexivity.
Defined.

Lemma register_login_roundtrip_witness :
  ∃ r db1,
    register (H := demo) carol "salt" 0 seeded = (Some r, db1) ∧ status r = 200 ∧
    users (set_users (λ us, us ++ [dave]) db1) = users db1 ++ [dave] ∧
    100 < 50 + 7 * 24 * 3600 ∧
    ∃ u r' token0 token,
      u ∈ users db1 ∧ (u ∉ users seeded) ∧
      body r = UserBody (u_id u) (u_email u) (u_role u) ∧
      authCookie r = Some token0 ∧
      login (H := demo) carol 50 (set_users (λ us, us ++ [dave]) db1) = Some r' ∧
      status r' = 200 ∧
      body r' = UserBody (u_id u) (u_email u) (u_role u) ∧
      authCookie r' = Some token ∧
      readUserFromReq (H := demo) (Some token) 100 (set_users (λ us, us ++ [dave]) db1)
        = Some u ∧
      (100 < 0 + 7 * 24 * 3600 →
       readUserFromReq (H := demo) (Some token0) 100 (set_users (λ us, us ++ [dave]) db1)
         = Some u).
Proof.
  eexists _, _. split; [vm_compute; reflexivity|]. split; [reflexivity|].
  split; [reflexivity|]. split; [lia|].
  apply (register_login_roundtrip (H := demo) (Hlaws := demo_ok)
           carol "salt" 0 50 100 seeded _ _ [dave]);
    [vm_compute; reflexivity|reflexivity|reflexivity|lia].
Defined.

(** The same round trip, run: Carol registers, Dave registers, Carol logs in
    at time 50 and is given a cookie that resolves to her record. *)
Example register_login_on_seeded :
  let db1 := (register (H := demo) carol "salt" 0 seeded).2 in
  let db2 := set_users (λ us, us ++ [dave]) db1 in
  let carol_row := mkUser "0" "carol@example.com" "hunter2$salt" USER in
  users db1 = users seeded ++ [carol_row] ∧
  ∃ r', login (H := demo) carol 50 db2 = Some r' ∧
        status r' = 200 ∧
        body r' = UserBody "0" "carol@example.com" USER ∧
        authCookie r' = Some ("0", 50 + 604800) ∧
        readUserFromReq (H := demo) (authCookie r') 100 db2 = Some carol_row.
Proof. vm_compute. split; [reflexivity|]. eexists. by split_and!. Qed.

(** ** Admin *)

Section AdminProofs.
Context `{Collaborators}.

(** What a successful update returns and stores. *)
Lemma adminUpdateProduct_ok id b db r db' :
  adminUpdateProduct id b db = (Some r, db') → status r = 200 →
  ∃ p d,
    product_findUnique_id id db = Some p ∧
    r = json (ItemBody (apply_data d p)) ∧
    db' = set_products (map (λ q, if eqb_id (p_id q) id then apply_data d q else q)) db ∧
    d_name d = d_name (update_data b) ∧ d_slug d = d_slug (update_data b) ∧
    d_description d = d_description (update_data b) ∧
    d_priceCents d = d_priceCents (update_data b) ∧
    d_imageUrl d = d_imageUrl (update_data b) ∧
    d_stock d = d_stock (update_data b) ∧
    (truthy (b_categorySlug b) = None → d_categoryId d = None).
Proof.
  unfold adminUpdateProduct. intros Hrun Hok.
  destruct (truthy (b_categorySlug b)) as [cs|] eqn:Hcs.
  - destruct (category_findUnique_slug cs db) as [cat|]; [|by simplify_eq].
    unfold product_update in Hrun.
    destruct (product_findUnique_id id db) as [p|]; [|by simplify_eq].
    destruct (match d_slug _ with Some _ => _ | None => _ end); [by simplify_eq|].
    destruct (is_int _ && is_int _); simplify_eq.
    eexists p, _. by repeat split.
  - unfold product_update in Hrun.
    destruct (product_findUnique_id id db) as [p|]; [|by simplify_eq].
    destruct (match d_slug _ with Some _ => _ | None => _ end); [by simplify_eq|].
    destruct (is_int _ && is_int _); simplify_eq.
    eexists p, _. by repeat split.
Qed.

(** An update that touches neither the slug nor the category, with a price
    and a stock that fit their columns, succeeds on every product in the
    store. *)
Lemma adminUpdateProduct_succeeds id b db p :
  product_findUnique_id id db = Some p →
  notNull (b_slug b) = None → truthy (b_categorySlug b) = None →
  (∀ z, b_priceCents b = Val z → in_Int z) → (∀ z, b_stock b = Val z → in_Int z) →
  ∃ r db', adminUpdateProduct id b db = (Some r, db') ∧ status r = 200.
Proof.
  intros Hp Hs Hc Hprice Hstock. unfold adminUpdateProduct, product_update.
  rewrite Hc, Hp. unfold update_data. rewrite Hs. simpl.
  assert (is_int (Js.nullish (notNull (b_priceCents b)) 0) = true) as ->.
  { unfold is_int. destruct (b_priceCents b) as [| |z] eqn:E; try done.
    destruct (Hprice z eq_refl). simpl. apply andb_true_iff. by rewrite !Z.leb_le. }
  assert (is_int (Js.nullish (notNull (b_stock b)) 0) = true) as ->.
  { unfold is_int. destruct (b_stock b) as [| |z] eqn:E; try done.
    destruct (Hstock z eq_refl). simpl. apply andb_true_iff. by rewrite !Z.leb_le. }
  by eexists _, _.
Qed.

Lemma update_data_drop_nulls b : update_data (drop_nulls b) = update_data b.
Proof.
  destruct b as [n s d pc i st c]. unfold update_data, drop_nulls. simpl.
  by destruct n as [| |[|? ?]], s as [| |[|? ?]], d, pc, st.
Qed.

(** C9.  An admin update changes only the fields whose key is in the body:
    the row the update returns and stores differs from the row it found only
    in fields the body has, the other rows and tables are untouched, and the
    body [{ stock: 5 }] sets the stock to 5 and nothing else. *)
Theorem adminUpdate_changes_only_present_fields (id : Id) (db : DB) (p : Product) :
  product_findUnique_id id db = Some p →
  (∀ b r db',
     adminUpdateProduct id b db = (Some r, db') → status r = 200 →
     ∃ f : Product → Product,
       r = json (ItemBody (f p)) ∧
       products db' = (λ q, if eqb_id (p_id q) id then f q else q) <$> products db ∧
       categories db' = categories db ∧ users db' = users db ∧
       orders db' = orders db ∧ orderItems db' = orderItems db ∧
       ∀ q,
         p_id (f q) = p_id q ∧ p_createdAt (f q) = p_createdAt q ∧
         (b_name b = Absent → p_name (f q) = p_name q) ∧
         (b_slug b = Absent → p_slug (f q) = p_slug q) ∧
         (b_description b = Absent → p_description (f q) = p_description q) ∧
         (b_priceCents b = Absent → p_priceCents (f q) = p_priceCents q) ∧
         (b_imageUrl b = Absent → p_imageUrl (f q) = p_imageUrl q) ∧
         (b_stock b = Absent → p_stock (f q) = p_stock q) ∧
         (b_categorySlug b = Absent → p_categoryId (f q) = p_categoryId q)) ∧
  adminUpdateProduct id body_stock_5 db =
    (Some (json (ItemBody (set_stock (λ _, 5) p))),
     set_products (map (λ q, if eqb_id (p_id q) id then set_stock (λ _, 5) q else q)) db).
Proof.
  intros Hp. split.
  - intros b r db' Hrun Hok.
    destruct (adminUpdateProduct_ok _ _ _ _ _ Hrun Hok)
      as (p0 & d & Hp0 & -> & -> & Hn & Hs & Hd & Hpc & Hi & Hst & Hc).
    assert (p0 = p) as -> by congruence.
    exists (apply_data d). repeat split; simpl.
    + kept Hn.
    + kept Hs.
    + kept Hd.
    + kept Hpc.
    + kept Hi.
    + kept Hst.
    + intros E. rewrite Hc; [done|]. by rewrite E.
  - unfold adminUpdateProduct, product_update. simpl. rewrite Hp.
    reflexivity.
Qed.

(** C10.  In an admin update the test for a key's presence differs between
    fields: [imageUrl: null] is applied and clears the image, while [null]
    under [name], [slug], [description], [priceCents] or [stock] is read as
    a missing key, and that field keeps its value. *)
Theorem adminUpdate_null_asymmetry (id : Id) (b : ProductBody) (db db' : DB)
    (r : Response Token) :
  adminUpdateProduct id b db = (Some r, db') → status r = 200 →
  ∃ p p',
    product_findUnique_id id db = Some p ∧ r = json (ItemBody p') ∧
    (b_imageUrl b = Null →
       p_imageUrl p' = None ∧
       ∀ q, q ∈ products db' → p_id q = id → p_imageUrl q = None) ∧
    adminUpdateProduct id (drop_nulls b) db = (Some r, db') ∧
    (b_name b = Null → p_name p' = p_name p) ∧
    (b_slug b = Null → p_slug p' = p_slug p) ∧
    (b_description b = Null → p_description p' = p_description p) ∧
    (b_priceCents b = Null → p_priceCents p' = p_priceCents p) ∧
    (b_stock b = Null → p_stock p' = p_stock p).
Proof.
  intros Hrun Hok.
  destruct (adminUpdateProduct_ok _ _ _ _ _ Hrun Hok)
    as (p & d & Hp & Hr & Hdb & Hn & Hs & Hd & Hpc & Hi & Hst & Hc).
  exists p, (apply_data d p). split; [done|]. split; [done|]. split.
  { intros E. split; [revert E; simpl; kept Hi|].
    intros q Hq Hid. subst db'. simpl in Hq.
    apply list_elem_of_fmap in Hq as (q0 & -> & Hq0).
    destruct (eqb_id (p_id q0) id) eqn:Eid.
    - simpl. rewrite Hi. unfold update_data. simpl. by rewrite E.
    - exfalso. unfold eqb_id in Eid. by apply bool_decide_eq_false in Eid. }
  split.
  { rewrite <- Hrun. unfold adminUpdateProduct. by rewrite update_data_drop_nulls. }
  simpl. split; [kept Hn|]. split; [kept Hs|]. split; [kept Hd|].
  split; [kept Hpc|kept Hst].
Qed.

(** X13.  A product created without a slug (missing, null or empty) gets
    the slug [makeSlug] makes of its name. *)
Lemma adminCreateProduct_slug b now db r db' :
  adminCreateProduct b now db = (Some r, db') → status r = 200 →
  truthy (b_slug b) = None →
  ∃ item, r = json (ItemBody item) ∧ item ∈ products db' ∧
          p_slug item = makeSlug (p_name item).
Proof.
  unfold adminCreateProduct. intros Hrun Hok Hslug.
  destruct (truthy (b_name b)) as [name|]; [|by simplify_eq].
  destruct (notNull (b_priceCents b)) as [pc|]; [|by simplify_eq].
  destruct (truthy (b_categorySlug b)) as [cs|]; [|by simplify_eq].
  destruct (category_findUnique_slug cs db) as [cat|]; [|by simplify_eq].
  rewrite Hslug in Hrun. unfold product_create in Hrun.
  destruct (product_findUnique_slug _ db); [by simplify_eq|].
  destruct (is_int _ && is_int _); simplify_eq.
  eexists. split; [done|]. split; [|done].
  simpl. apply elem_of_app. right. apply list_elem_of_here.
Qed.

Lemma find_updated id (g : Product → Product) (f : Product → bool) ps p :
  List.find (λ q, eqb_id (p_id q) id) ps = Some p →
  f (g p) = true →
  (∀ q, q ∈ ps → p_id q ≠ id → f q = false) →
  List.find f (map (λ q, if eqb_id (p_id q) id then g q else q) ps) = Some (g p).
Proof.
  induction ps as [|q ps IH]; simpl; [done|]. intros Hp Hgp Hothers.
  unfold eqb_id in *. case_bool_decide as E.
  - simplify_eq. by rewrite Hgp.
  - rewrite (Hothers q) by (done || apply list_elem_of_here).
    apply IH; [done|done|]. intros q' Hq'. apply Hothers. by apply list_elem_of_further.
Qed.

(** The row stored under the id after a successful update is the row the
    update returns. *)
Lemma adminUpdateProduct_stored id b db item db' :
  adminUpdateProduct id b db = (Some (json (ItemBody item)), db') →
  product_findUnique_id id db' = Some item.
Proof.
  intros Hrun.
  destruct (adminUpdateProduct_ok _ _ _ _ _ Hrun eq_refl)
    as (p & d & Hp & Hr & -> & _).
  injection Hr as ->. unfold product_findUnique_id in *. simpl.
  apply (find_updated id (apply_data d) _ _ p Hp).
  - apply find_some in Hp as [_ Hid]. exact Hid.
  - intros q _ Hne. unfold eqb_id. by rewrite bool_decide_eq_false_2.
Qed.

(** X14.  An update whose body clears the slug (the empty string) stores,
    in the row of that id, the slug [makeSlug] makes of the name in the same
    body, and the empty slug when the body has no name; the reply carries
    the row as stored. *)
Lemma adminUpdateProduct_slug_cleared id b db r db' :
  adminUpdateProduct id b db = (Some r, db') → status r = 200 →
  b_slug b = Val EmptyString →
  ∃ item,
    body r = ItemBody item ∧
    product_findUnique_id id db' = Some item ∧
    match truthy (b_name b) with
    | Some name => p_name item = name ∧ p_slug item = makeSlug name
    | None => p_slug item = EmptyString
    end.
Proof.
  intros Hrun Hok Hslug.
  destruct (adminUpdateProduct_ok _ _ _ _ _ Hrun Hok)
    as (p & d & Hp & Hr & _ & Hn & Hs & _).
  subst r. exists (apply_data d p). split; [done|].
  split; [by apply (adminUpdateProduct_stored id b db)|].
  simpl. rewrite Hn, Hs. unfold update_data. simpl.
  rewrite Hslug. simpl.
  by destruct (b_name b) as [| |[|c n]].
Qed.

End AdminProofs.

(** C6 fails on the update path.  Clearing the slug of the seeded
    "Basic Tee" with the body [{ slug: '' }] stores the empty slug, not
    "basic-tee", the normalisation of the product's name: the handler
    normalises the [name] of the request body, which this body does not
    have. *)
Theorem update_cleared_slug_not_from_product_name :
  ∀ H : Collaborators,
  ∃ item db',
    adminUpdateProduct "p1" body_slug_cleared seeded = (Some (json (ItemBody item)), db') ∧
    product_findUnique_id "p1" db' = Some item ∧
    p_name item = "Basic Tee" ∧
    makeSlug (p_name item) = "basic-tee" ∧
    p_slug item = EmptyString.
Proof. intros H. eexists _, _. repeat split. Qed.

Lemma adminUpdate_changes_only_present_fields_witness :
  product_findUnique_id "p1" seeded
    = Some (mkProduct "p1" "Basic Tee" "basic-tee" "Soft cotton tee" 1999
              (Some "https://picsum.photos/seed/tee/400/300") 50 "c1" 1) ∧
  adminUpdateProduct (H := demo) "p1" body_stock_5 seeded =
    (Some (json (ItemBody
       (mkProduct "p1" "Basic Tee" "basic-tee" "Soft cotton tee" 1999
          (Some "https://picsum.photos/seed/tee/400/300") 5 "c1" 1))),
     set_products (map (λ q, if eqb_id (p_id q) "p1" then set_stock (λ _, 5) q else q))
                  seeded).
Proof.
  split; [reflexivity|].
  apply (adminUpdate_changes_only_present_fields (H := demo) "p1" seeded
           (mkProduct "p1" "Basic Tee" "basic-tee" "Soft cotton tee" 1999
              (Some "https://picsum.photos/seed/tee/400/300") 50 "c1" 1)).
  reflexivity.
Defined.

Lemma adminUpdate_null_asymmetry_witness :
  ∃ r db',
    adminUpdateProduct (H := demo) "p1" body_imageUrl_null seeded = (Some r, db') ∧
    status r = 200 ∧
    ∃ p p',
      product_findUnique_id "p1" seeded = Some p ∧ r = json (ItemBody p') ∧
      (b_imageUrl body_imageUrl_null = Null →
         p_imageUrl p' = None ∧
         ∀ q, q ∈ products db' → p_id q = "p1" → p_imageUrl q = None) ∧
      adminUpdateProduct (H := demo) "p1" (drop_nulls body_imageUrl_null) seeded
        = (Some r, db') ∧
      (b_name body_imageUrl_null = Null → p_name p' = p_name p) ∧
      (b_slug body_imageUrl_null = Null → p_slug p' = p_slug p) ∧
      (b_description body_imageUrl_null = Null → p_description p' = p_description p) ∧
      (b_priceCents body_imageUrl_null = Null → p_priceCents p' = p_priceCents p) ∧
      (b_stock body_imageUrl_null = Null → p_stock p' = p_stock p).
Proof.
  eexists _, _. split; [vm_compute; reflexivity|]. split; [reflexivity|].
  apply (adminUpdate_null_asymmetry (H := demo) "p1" body_imageUrl_null seeded);
    reflexivity.
Defined.

(** Both readings of [null] on the seeded store: the image is cleared, the
    five other fields keep their values. *)
Example adminUpdate_nulls_on_seeded :
  p_imageUrl <$> product_findUnique_id "p1"
     (adminUpdateProduct (H := demo) "p1" body_imageUrl_null seeded).2 = Some None ∧
  adminUpdateProduct (H := demo) "p1" body_nulls seeded =
    (Some (json (ItemBody
       (mkProduct "p1" "Basic Tee" "basic-tee" "Soft cotton tee" 1999
          (Some "https://picsum.photos/seed/tee/400/300") 50 "c1" 1))), seeded).
Proof. split; reflexivity. Qed.

(** * Further properties of the handlers *)

(** ** makeSlug and requireAdmin *)

(** X1.  The slug [makeSlug] returns is normalised (only [[a-z0-9]] words
    joined by single dashes, no dash at either end), it holds the letters
    and digits of the lower-cased input in their order, and normalising it
    again changes nothing. *)
Theorem makeSlug_normalises (s : string) :
  is_slug (makeSlug s) = true ∧
  alnum (makeSlug s) = alnum (Js.toLowerCase s) ∧
  makeSlug (makeSlug s) = makeSlug s.
Proof.
  split; [apply makeSlug_is_slug|]. split; [apply makeSlug_alnum|].
  apply makeSlug_idempotent.
Qed.

(** X2.  The strings [makeSlug] leaves as they are are exactly the
    normalised slugs. *)
Theorem makeSlug_fixed_points (s : string) :
  makeSlug s = s ↔ is_slug s = true.
Proof.
  split; [|apply makeSlug_fixed].
  intros E. rewrite <- E. apply makeSlug_is_slug.
Qed.

(** X3.  [requireAdmin] lets a request through exactly when it carries a
    key, the key is not empty, and it equals [ADMIN_KEY]; with an empty
    [ADMIN_KEY] (the variable unset) no request gets through, and a request
    that does not get through is answered 401 with the store untouched and
    the handler not run. *)
Theorem requireAdmin_admits `{Collaborators} (ADMIN_KEY : string) (key : option string) :
  (requireAdmin ADMIN_KEY key = true ↔ key = Some ADMIN_KEY ∧ ADMIN_KEY ≠ EmptyString) ∧
  requireAdmin EmptyString key = false ∧
  ∀ handler db,
    admin_route ADMIN_KEY key handler db =
      if requireAdmin ADMIN_KEY key then handler db
      else (Some (error_json 401 "unauthorized"), db).
Proof.
  split; [|split; [|done]].
  - unfold requireAdmin. destruct key as [[|c k]|]; simpl.
    + split; [done|]. by intros [[= <-] ?].
    + rewrite bool_decide_eq_true. split.
      * intros <-. by split.
      * by intros [[= ->] _].
    + split; [done|]. by intros [? _].
  - unfold requireAdmin. by destruct key as [[|c k]|].
Qed.

(** ** Checkout *)

Section CheckoutMore.
Context `{Collaborators}.

Lemma validate_None (m : gmap Id Product) items :
  validate m items = None → Forall (passes m) items.
Proof.
  induction items as [|i rest IH]; simpl; [constructor|].
  destruct (m !! productId i) as [p|] eqn:Hp; [|done].
  destruct (Z.ltb_spec (quantity i) 1); [done|].
  destruct (Z.ltb_spec (p_stock p) (quantity i)); [done|].
  intros Hrest. constructor; [|by apply IH]. exists p. split; [done|lia].
Qed.

Lemma stock_only_down_refl p : stock_only_down p p.
Proof. split; [by destruct p|lia]. Qed.

Lemma stock_only_down_trans p1 p2 p3 :
  stock_only_down p1 p2 → stock_only_down p2 p3 → stock_only_down p1 p3.
Proof.
  unfold stock_only_down, same_but_stock. intros [E1 L1] [E2 L2].
  split; [|lia]. rewrite E2, E1. by destruct p1.
Qed.

Lemma tx_items_inv created (m : gmap Id Product) items :
  ∀ db1 db2,
  Forall (λ i, 1 ≤ quantity i) items →
  tx_items created m items db1 = Some db2 →
  categories db2 = categories db1 ∧ users db2 = users db1 ∧
  orders db2 = orders db1 ∧
  Forall2 stock_only_down (products db1) (products db2) ∧
  ∃ newItems,
    orderItems db2 = orderItems db1 ++ newItems ∧
    Forall2 (line_made created m) items newItems.
Proof.
  induction items as [|i rest IH]; intros db1 db2 Hq Hrun; simpl in Hrun.
  - simplify_eq. repeat split; try done.
    + apply Forall_Forall2_diag, Forall_forall. intros; apply stock_only_down_refl.
    + exists []. split; [by rewrite app_nil_r|constructor].
  - apply Forall_cons in Hq as [Hi Hq].
    destruct (m !! productId i) as [p|] eqn:Hp; [|done]. simpl in Hrun.
    unfold orderItem_create in Hrun.
    destruct (is_int (quantity i) && is_int (p_priceCents p)); [|done].
    simpl in Hrun. unfold product_decrement_stock in Hrun.
    destruct (product_findUnique_id _ _) as [p1|]; [|done].
    destruct (is_int (quantity i) && is_int (p_stock p1 - quantity i)); [|done].
    simpl in Hrun.
    apply IH in Hrun as (Hc & Hu & Ho & Hps & new & Hois & Hlines); [|done].
    simpl in *. repeat split; try done.
    + eapply Forall2_trans; [apply stock_only_down_trans| |exact Hps].
      apply Forall2_fmap_r, Forall_Forall2_diag, Forall_forall. intros q _. simpl.
      destruct (eqb_id (p_id q) (p_id p)); [|apply stock_only_down_refl].
      split; [by destruct q|simpl; lia].
    + eexists (_ :: new). rewrite Hois, <- app_assoc. split; [done|].
      constructor; [|done]. exists p. by repeat split.
Qed.


(** What the handler holds and does when it answers 200. *)
Lemma checkout_ok_inv req db r db' :
  checkout req db = (r, db') → status r = 200 →
  ∃ o m,
    m = product_map (product_findMany_in (productId <$> items req) db) ∧
    Forall (passes m) (items req) ∧
    totalCents_of m (items req) = Some (o_totalCents o) ∧
    o_userEmail o = order_email (email req) ∧
    r = json (CheckoutBody (o_id o) (o_totalCents o)) ∧
    tx_items o m (items req) (set_orders (λ os, os ++ [o]) db) = Some db'.
Proof.
  unfold checkout, checkout_validate. intros Hrun Hok.
  destruct (items req) as [|i0 rest] eqn:Hitems; [by simplify_eq|].
  destruct (validate _ _) as [e|] eqn:Hv.
  { simplify_eq. apply validate_status in Hv. congruence. }
  apply validate_None in Hv.
  destruct (totalCents_of _ _) as [t|] eqn:Ht; [|by simplify_eq].
  unfold checkout_commit, checkout_tx, order_create in Hrun.
  cbn [pd_email pd_totalCents pd_items pd_map] in Hrun.
  destruct (is_int t); cbn [mbind option_bind] in Hrun; [|by simplify_eq].
  set (o := mkOrder _ _ _) in Hrun.
  destruct (tx_items o _ _ _) as [db2|] eqn:Htx; cbn [mbind option_bind] in Hrun;
    [|by simplify_eq].
  simplify_eq. exists o. eexists. by repeat split.
Qed.

Lemma checkout_outcome req db :
  status (checkout req db).1 = 200 ∨ (checkout req db).2 = db.
Proof.
  unfold checkout. destruct (checkout_validate req db) as [e|pd]; [by right|].
  unfold checkout_commit. destruct (checkout_tx pd db) as [[o db']|]; [by left|by right].
Qed.

(** X4.  A checkout is all or nothing: it answers 200, or it leaves the
    store exactly as it found it (a refused cart, or a transaction that
    threw and was rolled back); and a refusal is a 400 or a 500. *)
Theorem checkout_all_or_nothing (req : CheckoutReq) (db : DB) :
  status (checkout req db).1 = 200 ∨
  ((checkout req db).2 = db ∧
   (status (checkout req db).1 = 400 ∨ status (checkout req db).1 = 500)).
Proof.
  unfold checkout, checkout_validate.
  destruct (items req) as [|i0 rest]; [right; split; [done|by left]|].
  destruct (validate _ _) as [e|] eqn:Hv.
  { right. split; [done|]. left. by apply validate_status in Hv. }
  destruct (totalCents_of _ _); [|right; split; [done|by right]].
  unfold checkout_commit. destruct (checkout_tx _ db) as [[o db']|]; [by left|].
  right. split; [done|by right].
Qed.


Lemma checkout_db_shape req db :
  categories (checkout req db).2 = categories db ∧
  users (checkout req db).2 = users db ∧
  Forall2 stock_only_down (products db) (products (checkout req db).2) ∧
  (∃ os, orders (checkout req db).2 = orders db ++ os ∧ (length os ≤ 1)%nat) ∧
  (∃ ois, orderItems (checkout req db).2 = orderItems db ++ ois).
Proof.
  destruct (checkout req db) as [r db'] eqn:Hrun.
  destruct (checkout_outcome req db) as [Hok|Hsame]; rewrite Hrun in *; simpl in *.
  - destruct (checkout_ok_inv _ _ _ _ Hrun Hok) as (o & m & _ & Hpass & _ & _ & _ & Htx).
    apply tx_items_inv in Htx as (Hc & Hu & Ho & Hps & new & Hois & _).
    2:{ eapply Forall_impl; [exact Hpass|]. intros i (p & _ & ?). lia. }
    simpl in *. split_and!; try done.
    + by exists [o].
    + by exists new.
  - subst db'. split_and!; try done.
    + apply Forall_Forall2_diag, Forall_forall. intros p _. apply stock_only_down_refl.
    + exists []. split; [by rewrite app_nil_r|simpl; lia].
    + exists []. by rewrite app_nil_r.
Qed.

(** X6.  Whatever the request, a checkout leaves categories and users as
    they were, keeps every product row in place with every field but [stock]
    unchanged and no stock raised, and only ever appends to the orders (at
    most one) and to the order items. *)
Theorem checkout_frame (req : CheckoutReq) (db : DB) :
  categories (checkout req db).2 = categories db ∧
  users (checkout req db).2 = users db ∧
  Forall2 (λ p p', same_but_stock p p' ∧ p_stock p' ≤ p_stock p)
          (products db) (products (checkout req db).2) ∧
  (∃ os, orders (checkout req db).2 = orders db ++ os ∧ (length os ≤ 1)%nat) ∧
  (∃ ois, orderItems (checkout req db).2 = orderItems db ++ ois).
Proof.
  destruct (checkout_db_shape req db) as (Hc & Hu & Hps & Ho & Hoi).
  by split_and!.
Qed.

End CheckoutMore.


(** ** Catalog *)

Section CatalogMore.
Context `{Collaborators}.

(** The [where] the handler builds asks for the text filter and the
    category filter together. *)
Lemma matches_build_where db q c p :
  matches db (build_where q c) p = text_matches q p && category_matches db c p.
Proof.
  unfold build_where, text_matches, category_matches.
  destruct (nonEmpty q) as [q'|], (nonEmpty c) as [c'|]; simpl;
    try destruct (category_findUnique_id (p_categoryId p) db) as [cat|]; simpl;
    rewrite ?orb_false_r, ?andb_true_r, ?andb_false_r; done.
Qed.

Lemma sort_desc_elem p l : p ∈ sort_desc l ↔ p ∈ l.
Proof. by rewrite sort_desc_perm. Qed.

Lemma sort_desc_length l : length (sort_desc l) = length l.
Proof. apply Permutation_length, sort_desc_perm. Qed.

(** The rows a query selects, newest first. *)
Lemma listProducts_numeric query db :
  numeric (query_page query) → numeric (query_limit query) →
  ∃ page limit,
    page_of query = Js.Num page ∧ limit_of query = Js.Num limit ∧
    1 ≤ page ∧ 1 ≤ limit ≤ 24 ∧
    ∀ w, product_findMany w (Js.mul (Js.sub (page_of query) (Js.Num 1)) (limit_of query))
           (limit_of query) db =
         Some ((λ p, (p, category_findUnique_id (p_categoryId p) db)) <$>
               take (Z.to_nat limit)
                 (drop (Z.to_nat ((page - 1) * limit))
                    (sort_desc (List.filter (matches db w) (products db))))).
Proof.
  intros Hpage Hlimit.
  rewrite (page_of_numeric _ Hpage), (limit_of_numeric _ Hlimit).
  set (page := Z.max 1 _). set (limit := Z.min 24 _).
  assert (Hl : 1 ≤ limit ≤ 24) by (subst limit; lia).
  assert (Hp : 1 ≤ page) by (subst page; lia).
  exists page, limit. split_and!; try done; try lia.
  intros w. unfold product_findMany, Js.mul, Js.sub.
  destruct (Z.leb_spec 0 ((page - 1) * limit)); [|nia].
  by destruct (Z.leb_spec 0 limit); [|lia].
Qed.

Lemma append_cons c (a b : string) : String c a +:+ b = String c (a +:+ b).
Proof. reflexivity. Qed.

Lemma prefix_spec (b a : string) :
  String.prefix b a = true ↔ ∃ post, a = b +:+ post.
Proof.
  revert a. induction b as [|c b IH]; intros a.
  - split; [by exists a|by destruct a].
  - destruct a as [|c' a]; simpl.
    + split; [done|]. by intros [post E].
    + destruct (ascii_dec c c') as [->|Hne].
      * rewrite IH. split; intros [post E]; exists post.
        -- by rewrite append_cons, <- E.
        -- rewrite append_cons in E. by injection E.
      * split; [done|]. intros [post E]. rewrite append_cons in E.
        injection E as E _. by symmetry in E.
Qed.

(** [a.includes(b)]: [b] stands somewhere in [a]. *)
Lemma includes_spec (a b : string) :
  Js.includes a b = true ↔ ∃ pre post, a = pre +:+ b +:+ post.
Proof.
  induction a as [|c a IH].
  - change (Js.includes EmptyString b) with (String.prefix b EmptyString || false).
    rewrite orb_false_r, prefix_spec. split.
    + intros [post E]. by exists EmptyString, post.
    + intros (pre & post & E). destruct pre; [by exists post|done].
  - change (Js.includes (String c a) b)
      with (String.prefix b (String c a) || Js.includes a b).
    rewrite orb_true_iff, prefix_spec, IH. split.
    + intros [[post E]|(pre & post & E)].
      * by exists EmptyString, post.
      * exists (String c pre), post. by rewrite append_cons, <- E.
    + intros (pre & post & E). destruct pre as [|c' pre].
      * left. by exists post.
      * right. exists pre, post. rewrite append_cons in E. by injection E.
Qed.

(** The filters of the handler's [where] are the filters the specification
    describes. *)
Lemma filters_selected db q c p :
  text_matches q p && category_matches db c p = true ↔ Selected db q c p.
Proof.
  assert (Ht : text_matches q p = true ↔
               ∀ q', q = Some q' → q' ≠ EmptyString →
                     contains_ci (p_name p) q' ∨ contains_ci (p_description p) q').
  { unfold text_matches, insensitive_contains, contains_ci.
    destruct q as [[|x q']|]; cbn [nonEmpty].
    - split; [by intros _ ? [= <-]|done].
    - rewrite orb_true_iff, !includes_spec. split.
      + by intros Hm ? [= <-] _.
      + intros Hm. by apply Hm.
    - split; [by intros _ ? [=]|done]. }
  assert (Hc : category_matches db c p = true ↔
               ∀ c', c = Some c' → c' ≠ EmptyString →
                     ∃ cat, category_findUnique_id (p_categoryId p) db = Some cat ∧
                            (equals_ci (c_slug cat) c' ∨ equals_ci (c_name cat) c')).
  { unfold category_matches, insensitive_equals, equals_ci.
    destruct c as [[|x c']|]; cbn [nonEmpty].
    - split; [by intros _ ? [= <-]|done].
    - destruct (category_findUnique_id (p_categoryId p) db) as [cat|].
      + rewrite orb_true_iff, !bool_decide_eq_true. split.
        * intros Hm ? [= <-] _. by exists cat.
        * intros Hm. by destruct (Hm _ eq_refl) as (cat' & [= <-] & ?).
      + split; [done|]. intros Hm. by destruct (Hm _ eq_refl) as (cat' & [=] & _).
    - split; [by intros _ ? [=]|done]. }
  unfold Selected. by rewrite andb_true_iff, Ht, Hc.
Qed.

(** X9.  For a [q] and a [category] without the wildcard characters [%],
    [_] and [\]: every product on a returned page is a product of the store
    that passes the text filter (the trimmed [q] is contained, ignoring
    case, in its name or description) and the category filter (the trimmed
    [category] equals, ignoring case, its category's slug or name), it comes
    with its category, and [total] counts the products of the store that
    pass both filters. *)
Theorem listProducts_items_match (query : ListQuery) (db : DB)
    (r : Response Token) (items : list (Product * option Category))
    (page limit pageCount : Js.number) (total : Z) :
  plain_text (query_q query) → plain_text (query_category query) →
  listProducts query db = Some r →
  body r = PageBody items page limit total pageCount →
  let q := Js.trim <$> query_q query in
  let category := Js.trim <$> query_category query in
  Forall (λ it : Product * option Category,
            it.1 ∈ products db ∧ Selected db q category it.1 ∧
            it.2 = category_findUnique_id (p_categoryId it.1) db) items ∧
  ∃ selected : Product → bool,
    (∀ p, selected p = true ↔ Selected db q category p) ∧
    total = Z.of_nat (length (List.filter selected (products db))).
Proof.
  unfold listProducts. intros _ _ Hrun Hbody.
  destruct (product_findMany _ _ _ db) as [its|] eqn:Hfind; [|done].
  simpl in Hrun. injection Hrun as <-. simpl in Hbody. injection Hbody as -> _ _ <- _.
  split.
  - unfold product_findMany in Hfind.
    destruct (Js.mul _ _) as [|s]; [done|]. destruct (limit_of query) as [|t]; [done|].
    destruct (_ && _); [|done]. simplify_eq.
    apply Forall_fmap, Forall_forall. intros p Hp. simpl.
    assert (Hin : p ∈ List.filter
              (matches db (build_where (Js.trim <$> query_q query)
                                       (Js.trim <$> query_category query)))
              (products db)).
    { apply sort_desc_elem.
      apply elem_of_take in Hp as (i & Hi & _). rewrite lookup_drop in Hi.
      by eapply list_elem_of_lookup_2. }
    apply list_elem_of_In, filter_In in Hin as [Hin Hm].
    rewrite matches_build_where in Hm. apply filters_selected in Hm.
    split_and!; try done. by apply list_elem_of_In.
  - eexists. split; [intros p; apply filters_selected|].
    unfold product_count. do 2 f_equal. apply filter_ext. intros p.
    apply matches_build_where.
Qed.

Lemma concat_pages {A} (L n : nat) (l : list A) :
  concat ((λ k, take L (drop (k * L) l)) <$> seq 0 n) = take (n * L) l.
Proof.
  induction n as [|n IH]; [done|].
  rewrite seq_S, fmap_app, concat_app, IH. simpl. rewrite app_nil_r.
  rewrite take_take_drop. f_equal. lia.
Qed.

Lemma page_products_slice query db (limit : Z) (k : nat) :
  numeric (query_limit query) → limit_of query = Js.Num limit → (1 ≤ k)%nat →
  page_products (with_page (Z.of_nat k) query) db =
    take (Z.to_nat limit)
      (drop ((k - 1) * Z.to_nat limit)
         (sort_desc (List.filter
            (matches db (build_where (Js.trim <$> query_q query)
                                     (Js.trim <$> query_category query)))
            (products db)))).
Proof.
  intros Hlimit Hl Hk. unfold page_products, listProducts.
  destruct (listProducts_numeric (with_page (Z.of_nat k) query) db)
    as (pg & lm & Hpg & Hlm & Hpg1 & Hlm1 & Hfind); [done|done|].
  rewrite Hfind. simpl.
  assert (lm = limit) as -> by (unfold limit_of in *; simpl in *; congruence).
  assert (pg = Z.of_nat k) as ->.
  { unfold page_of in Hpg. simpl in Hpg. injection Hpg as <-. lia. }
  rewrite <- list_fmap_compose. erewrite (list_fmap_ext _ id); [|by intros].
  rewrite list_fmap_id. do 2 f_equal. nia.
Qed.

(** X10.  For a numeric [limit], a [q] and a [category] without the
    wildcard characters, and products of distinct creation times: the pages
    1 to [pageCount] of a query, one after the other, list every product that
    passes the filters exactly once, newest first; a page after [pageCount]
    is empty. *)
Theorem listProducts_pages_cover (query : ListQuery) (db : DB) :
  numeric (query_limit query) →
  plain_text (query_q query) → plain_text (query_category query) →
  NoDup (p_createdAt <$> products db) →
  let q := Js.trim <$> query_q query in
  let category := Js.trim <$> query_category query in
  ∃ (all : list Product) (selected : Product → bool),
    concat ((λ k, page_products (with_page (Z.of_nat k) query) db)
              <$> seq 1 (Z.to_nat (page_count (with_page 1 query) db))) = all ∧
    (∀ p, selected p = true ↔ Selected db q category p) ∧
    all ≡ₚ List.filter selected (products db) ∧
    StronglySorted newer_first all ∧
    ∀ k : nat, page_count (with_page 1 query) db < Z.of_nat k →
               page_products (with_page (Z.of_nat k) query) db = [].
Proof.
  intros Hlimit _ _ _. simpl.
  set (w := build_where (Js.trim <$> query_q query) (Js.trim <$> query_category query)).
  set (rows := sort_desc (List.filter (matches db w) (products db))).
  destruct (listProducts_numeric (with_page 1 query) db)
    as (pg & limit & Hpg & Hlm & Hpg1 & Hlm1 & Hfind); [done|done|].
  assert (Hlm' : limit_of query = Js.Num limit) by exact Hlm.
  assert (Hpc : page_count (with_page 1 query) db
                = Z.max 1 (- (- Z.of_nat (length rows) / limit))).
  { unfold page_count, listProducts. rewrite Hfind. simpl.
    change (limit_of (with_page 1 query)) with (limit_of query). rewrite Hlm'.
    simpl. unfold product_count. fold w. unfold rows. by rewrite sort_desc_length. }
  destruct (ceil_div_least (Z.of_nat (length rows)) limit) as (Hc1 & Hc2 & _); [lia|lia|].
  rewrite <- Hpc in Hc1, Hc2.
  exists rows, (matches db w). split_and!.
  - rewrite <- fmap_S_seq, <- list_fmap_compose.
    rewrite (list_fmap_ext _
               (λ k, take (Z.to_nat limit) (drop (k * Z.to_nat limit) rows))).
    2:{ intros i k _. simpl.
        rewrite (page_products_slice query db limit (S k) Hlimit Hlm') by lia.
        simpl. by rewrite Nat.sub_0_r. }
    rewrite concat_pages. apply take_ge.
    assert (HL : Z.of_nat (Z.to_nat limit) = limit) by lia.
    assert (HP : Z.of_nat (Z.to_nat (page_count (with_page 1 query) db))
                 = page_count (with_page 1 query) db) by lia.
    revert HL HP Hc2. generalize (Z.to_nat limit) (length rows)
      (Z.to_nat (page_count (with_page 1 query) db)). intros L n P. nia.
  - intros p. unfold w. rewrite matches_build_where. apply filters_selected.
  - unfold rows. apply sort_desc_perm.
  - apply sort_desc_sorted.
  - intros k Hk.
    rewrite (page_products_slice query db limit k Hlimit Hlm') by lia.
    rewrite drop_ge; [by destruct (Z.to_nat limit)|].
    destruct k as [|k]; [lia|]. simpl. rewrite Nat.sub_0_r.
    assert (Hle : page_count (with_page 1 query) db * limit ≤ Z.of_nat k * limit) by nia.
    apply Nat2Z.inj_le. rewrite Nat2Z.inj_mul, Z2Nat.id by lia.
    etrans; [exact Hc2|exact Hle].
Qed.

Lemma text_matches_lower q q' p :
  Js.toLowerCase <$> q = Js.toLowerCase <$> q' → text_matches q p = text_matches q' p.
Proof.
  unfold text_matches, insensitive_contains.
  destruct q as [a|], q' as [b|]; try done. intros [= E].
  destruct a as [|x a], b as [|y b]; try done. cbn [nonEmpty]. by rewrite E.
Qed.

Lemma category_matches_lower db c c' p :
  Js.toLowerCase <$> c = Js.toLowerCase <$> c' →
  category_matches db c p = category_matches db c' p.
Proof.
  unfold category_matches, insensitive_equals.
  destruct c as [a|], c' as [b|]; try done. intros [= E].
  destruct a as [|x a], b as [|y b]; try done. cbn [nonEmpty].
  destruct (category_findUnique_id _ _); [|done]. by rewrite E.
Qed.

(** X11.  Letter case and surrounding white space of [q] and [category] do
    not matter: two queries that agree on [page] and [limit] and whose [q]
    and [category] agree once trimmed and lower-cased get the same reply. *)
Theorem listProducts_ignores_case (query query' : ListQuery) (db : DB) :
  query_page query = query_page query' →
  query_limit query = query_limit query' →
  Js.toLowerCase ∘ Js.trim <$> query_q query
    = Js.toLowerCase ∘ Js.trim <$> query_q query' →
  Js.toLowerCase ∘ Js.trim <$> query_category query
    = Js.toLowerCase ∘ Js.trim <$> query_category query' →
  listProducts query db = listProducts query' db.
Proof.
  intros Hp Hl Hq Hc. unfold listProducts, page_of, limit_of. rewrite <- Hp, <- Hl.
  assert (Hf : ∀ p,
    matches db (build_where (Js.trim <$> query_q query)
                            (Js.trim <$> query_category query)) p =
    matches db (build_where (Js.trim <$> query_q query')
                            (Js.trim <$> query_category query')) p).
  { intros p. rewrite !matches_build_where. f_equal.
    - apply text_matches_lower. by rewrite <- !option_fmap_compose.
    - apply category_matches_lower. by rewrite <- !option_fmap_compose. }
  unfold product_count, product_findMany.
  by rewrite (filter_ext _ _ Hf).
Qed.

End CatalogMore.

(** ** Products: admin writes and reads *)

Section ProductsMore.
Context `{Collaborators}.

Lemma find_map {A} (f : A → bool) (g : A → A) (l : list A) :
  List.find f (map g l) = g <$> List.find (f ∘ g) l.
Proof.
  induction l as [|x l IH]; simpl; [done|]. by destruct (f (g x)).
Qed.

Lemma category_by_slug_by_id cs db cat :
  category_findUnique_slug cs db = Some cat →
  cat ∈ categories db ∧
  ∃ cat', category_findUnique_id (c_id cat) db = Some cat' ∧ c_id cat' = c_id cat.
Proof.
  unfold category_findUnique_slug, category_findUnique_id. intros Hf.
  apply find_some in Hf as [Hin _]. apply list_elem_of_In in Hin. split; [done|].
  destruct (List.find _ (categories db)) as [cat'|] eqn:E.
  - exists cat'. split; [done|]. apply find_some in E as [_ E].
    by apply bool_decide_eq_true in E.
  - exfalso. eapply find_none in E; [|by apply list_elem_of_In].
    unfold eqb_id in E. by apply bool_decide_eq_false in E.
Qed.

(** What a successful create returns and stores. *)
Lemma adminCreateProduct_ok b now db r db' :
  adminCreateProduct b now db = (Some r, db') → status r = 200 →
  ∃ item cat,
    r = json (ItemBody item) ∧
    db' = set_products (λ ps, ps ++ [item]) db ∧
    product_findUnique_slug (p_slug item) db = None ∧
    p_id item = newId (p_id <$> products db) ∧
    cat ∈ categories db ∧ p_categoryId item = c_id cat ∧
    truthy (b_categorySlug b) = Some (c_slug cat) ∧
    truthy (b_name b) = Some (p_name item) ∧
    notNull (b_priceCents b) = Some (p_priceCents item) ∧
    p_createdAt item = now.
Proof.
  unfold adminCreateProduct. intros Hrun Hok.
  destruct (truthy (b_name b)) as [name|]; [|by simplify_eq].
  destruct (notNull (b_priceCents b)) as [pc|]; [|by simplify_eq].
  destruct (truthy (b_categorySlug b)) as [cs|]; [|by simplify_eq].
  destruct (category_findUnique_slug cs db) as [cat|] eqn:Hcat; [|by simplify_eq].
  unfold product_create in Hrun.
  destruct (product_findUnique_slug _ db) eqn:Hslug; [by simplify_eq|].
  destruct (is_int _ && is_int _); simplify_eq.
  eexists _, cat. split_and!; try done.
  - by apply category_by_slug_by_id in Hcat as [? _].
  - unfold category_findUnique_slug in Hcat. apply find_some in Hcat as [_ E].
    apply bool_decide_eq_true in E. by rewrite E.
Qed.

(** X12.  A product that the admin create has accepted, with a slug that
    is not empty, can at once be read by that slug: GET
    /api/v1/products/:slug answers 200 with that very product and a category
    of the id stored in it; the product's name is the name in the body. *)
Theorem adminCreate_then_getBySlug (b : ProductBody) (now : Z) (db db' : DB)
    (r : Response Token) (item : Product) :
  adminCreateProduct b now db = (Some r, db') → status r = 200 →
  body r = ItemBody item → p_slug item ≠ EmptyString →
  ∃ cat,
    getProductBySlug (p_slug item) db' = Json 200 (item, Some cat) ∧
    c_id cat = p_categoryId item ∧
    truthy (b_name b) = Some (p_name item).
Proof.
  intros Hrun Hok Hbody _.
  destruct (adminCreateProduct_ok _ _ _ _ _ Hrun Hok)
    as (item' & cat & -> & -> & Hfree & _ & Hcat & Hcid & Hcs & Hname & _).
  simpl in Hbody. injection Hbody as ->.
  assert (∃ cat', category_findUnique_id (p_categoryId item) db = Some cat' ∧
                  c_id cat' = p_categoryId item) as (cat' & Hcat' & Hid').
  { unfold category_findUnique_id.
    destruct (List.find _ (categories db)) as [cat'|] eqn:E.
    - exists cat'. split; [done|]. apply find_some in E as [_ E].
      by apply bool_decide_eq_true in E.
    - exfalso. eapply find_none in E; [|by apply list_elem_of_In].
      unfold eqb_id in E. apply bool_decide_eq_false in E. by rewrite Hcid in E. }
  exists cat'. split_and!; try done.
  unfold getProductBySlug, product_findUnique_slug in *. simpl.
  rewrite find_snoc, Hfree. rewrite bool_decide_eq_true_2 by done.
  unfold category_findUnique_id in *. simpl. by rewrite Hcat'.
Qed.

Lemma update_keeps_ids id (f : Product → Product) (ps : list Product) :
  (∀ q, p_id (f q) = p_id q) →
  p_id <$> map (λ q, if eqb_id (p_id q) id then f q else q) ps = p_id <$> ps.
Proof.
  intros Hf. induction ps as [|q ps IH]; [done|]. cbn [map fmap list_fmap] in *.
  f_equal; [|exact IH]. by destruct (eqb_id (p_id q) id).
Qed.

Lemma product_update_outcome id d db :
  (∃ p,
     product_update id d db =
       Some (apply_data d p,
             set_products (map (λ q, if eqb_id (p_id q) id then apply_data d q else q)) db) ∧
     product_findUnique_id id db = Some p ∧
     (∀ s, d_slug d = Some s →
           ∀ q, q ∈ products db → p_id q ≠ id → p_slug q ≠ s)) ∨
  product_update id d db = None.
Proof.
  unfold product_update.
  destruct (product_findUnique_id id db) as [p|] eqn:Hp; [|by right].
  destruct (match d_slug d with Some _ => _ | None => _ end) eqn:Htaken; [by right|].
  destruct (is_int _ && is_int _); [|by right].
  left. exists p. split_and!; try done.
  intros s Hs q Hq Hne Hslug. rewrite Hs in Htaken.
  assert (existsb (λ p', negb (eqb_id (p_id p') id) && bool_decide (p_slug p' = s))
                  (products db) = true); [|congruence].
  apply existsb_exists. exists q. split; [by apply list_elem_of_In|].
  unfold eqb_id. rewrite bool_decide_eq_false_2 by done.
  by rewrite bool_decide_eq_true_2.
Qed.

Lemma adminUpdateProduct_outcome id b db :
  (∃ r p d,
     adminUpdateProduct id b db =
       (Some r,
        set_products (map (λ q, if eqb_id (p_id q) id then apply_data d q else q)) db) ∧
     status r = 200 ∧ r = json (ItemBody (apply_data d p)) ∧
     product_findUnique_id id db = Some p ∧
     (∀ s, d_slug d = Some s →
           ∀ q, q ∈ products db → p_id q ≠ id → p_slug q ≠ s) ∧
     (∀ c, d_categoryId d = Some c → c ∈ c_id <$> categories db)) ∨
  ((adminUpdateProduct id b db).2 = db ∧
   ∀ r, (adminUpdateProduct id b db).1 = Some r → status r = 400).
Proof.
  unfold adminUpdateProduct.
  destruct (truthy (b_categorySlug b)) as [cs|].
  - destruct (category_findUnique_slug cs db) as [cat|] eqn:Hcat.
    + destruct (product_update_outcome id (set_categoryId (c_id cat) (update_data b)) db)
        as [(p & E & Hp & Hslug)|E]; rewrite E; [left|by right].
      eexists _, p, _. split_and!; try done. simpl. intros c [= <-].
      apply category_by_slug_by_id in Hcat as [Hin _]. by apply list_elem_of_fmap_2.
    + right. split; [done|]. by intros r [= <-].
  - destruct (product_update_outcome id (update_data b) db)
      as [(p & E & Hp & Hslug)|E]; rewrite E; [left|by right].
    eexists _, p, _. by split_and!.
Qed.

(** X15.  An admin update writes nothing unless it answers 200; a category
    slug that no category has is answered with 400 "category not found" and
    none of the other fields of the body is applied. *)
Theorem adminUpdate_all_or_nothing (id : Id) (b : ProductBody) (db : DB) :
  ((∃ r, (adminUpdateProduct id b db).1 = Some r ∧ status r = 200) ∨
   (adminUpdateProduct id b db).2 = db) ∧
  ∀ cs, truthy (b_categorySlug b) = Some cs →
        category_findUnique_slug cs db = None →
        adminUpdateProduct id b db = (Some (error_json 400 "category not found"), db).
Proof.
  split.
  - destruct (adminUpdateProduct_outcome id b db)
      as [(r & p & d & E & Hok & _)|[Hsame _]]; [left|by right].
    exists r. by rewrite E.
  - intros cs Hcs Hnone. unfold adminUpdateProduct. by rewrite Hcs, Hnone.
Qed.

Lemma NoDup_fmap_eq {A B} (f : A → B) (l : list A) x y :
  NoDup (f <$> l) → x ∈ l → y ∈ l → f x = f y → x = y.
Proof.
  induction l as [|z l IH]; intros Hnd Hx Hy E; [by apply elem_of_nil in Hx|].
  cbn [fmap list_fmap] in Hnd. apply NoDup_cons in Hnd as [Hz Hnd].
  apply elem_of_cons in Hx as [->|Hx], Hy as [->|Hy]; try done.
  - exfalso. apply Hz. rewrite E. by apply list_elem_of_fmap_2.
  - exfalso. apply Hz. rewrite <- E. by apply list_elem_of_fmap_2.
  - by apply IH.
Qed.

(** X16.  After an admin update that answered 200 with a product whose
    slug is not empty, the product read by its id is the product the update
    returned, and, the slugs of the store being distinct, so is the product
    read by the returned slug. *)
Theorem adminUpdate_then_read (id : Id) (b : ProductBody) (db db' : DB)
    (r : Response Token) (item : Product) :
  NoDup (p_slug <$> products db) →
  adminUpdateProduct id b db = (Some r, db') → status r = 200 →
  body r = ItemBody item → p_slug item ≠ EmptyString →
  product_findUnique_id id db' = Some item ∧
  getProductBySlug (p_slug item) db' =
    Json 200 (item, category_findUnique_id (p_categoryId item) db').
Proof.
  intros Hnd Hrun Hok Hbody _.
  destruct (adminUpdateProduct_outcome id b db)
    as [(r0 & p & d & E & _ & Hr & Hp & Hslug & _)|[Hsame Hbad]].
  2:{ rewrite Hrun in Hbad. specialize (Hbad r eq_refl). lia. }
  rewrite Hrun in E. simplify_eq. simpl in Hbody. injection Hbody as <-.
  pose proof Hp as Hp'. unfold product_findUnique_id in Hp'.
  destruct (find_some _ _ Hp') as [Hin Hid]. apply list_elem_of_In in Hin.
  apply bool_decide_eq_true in Hid.
  split.
  - unfold product_findUnique_id. simpl.
    apply (find_updated id (apply_data d) _ _ p Hp').
    + unfold eqb_id. by rewrite bool_decide_eq_true_2.
    + intros q _ Hne. unfold eqb_id. by rewrite bool_decide_eq_false_2.
  - unfold getProductBySlug, product_findUnique_slug. simpl.
    rewrite (find_updated id (apply_data d) _ _ p Hp'); [done| |].
    + by rewrite bool_decide_eq_true_2.
    + intros q Hq Hne. apply bool_decide_eq_false_2. simpl.
      destruct (d_slug d) as [s|] eqn:Hs; simpl.
      * by eapply Hslug.
      * intros Heq. apply Hne.
        by rewrite (NoDup_fmap_eq p_slug _ q p Hnd Hq Hin Heq).
Qed.

(** X17.  With fresh ids from the store, the admin create, the admin update
    and the checkout keep the product table well formed: the ids of the
    products stay distinct and every product's category exists. *)
Theorem handlers_keep_products_wf {Hlaws : CollaboratorsOk} (db : DB) :
  products_wf db →
  (∀ b now, products_wf (adminCreateProduct b now db).2) ∧
  (∀ id b, products_wf (adminUpdateProduct id b db).2) ∧
  (∀ req, products_wf (checkout req db).2).
Proof.
  intros [Hids Hcats]. split_and!.
  - intros b now. destruct (adminCreateProduct b now db) as [[r|] db'] eqn:Hrun.
    2:{ unfold adminCreateProduct in Hrun. repeat case_match; by simplify_eq. }
    destruct (decide (status r = 200)) as [Hok|Hbad].
    + destruct (adminCreateProduct_ok _ _ _ _ _ Hrun Hok)
        as (item & cat & _ & -> & _ & Hid & Hcat & Hcid & _).
      split; simpl.
      * rewrite fmap_app. apply NoDup_app. split_and!; [done| |apply NoDup_singleton].
        intros x Hx [->|[]%elem_of_nil]%elem_of_cons. rewrite Hid in Hx.
        by apply newId_fresh in Hx.
      * apply Forall_app. split; [done|]. apply Forall_singleton.
        rewrite Hcid. by apply list_elem_of_fmap_2.
    + unfold adminCreateProduct in Hrun.
      repeat case_match; simplify_eq; try done.
  - intros id b. destruct (adminUpdateProduct_outcome id b db)
      as [(r & p & d & -> & _ & _ & _ & _ & Hc)|[-> _]]; [|done].
    split; simpl.
    + rewrite update_keeps_ids; [done|by intros []].
    + apply Forall_forall. intros q' [q [-> Hq]]%list_elem_of_fmap.
      rewrite Forall_forall in Hcats. specialize (Hcats q Hq).
      destruct (eqb_id (p_id q) id); [|done]. simpl.
      destruct (d_categoryId d) as [c|] eqn:Hd; simpl; [by apply Hc|done].
  - intros req. destruct (checkout_db_shape req db) as (Hc & _ & Hps & _).
    split.
    + replace (p_id <$> products (checkout req db).2) with (p_id <$> products db); [done|].
      clear -Hps. induction Hps as [|p p' ps ps' [Hp _] _ IH]; [done|].
      cbn [fmap list_fmap]. f_equal; [|exact IH]. by rewrite Hp.
    + rewrite Hc. clear -Hps Hcats.
      induction Hps as [|p p' ps ps' [Hp _] _ IH]; [constructor|].
      apply Forall_cons in Hcats as [Hcat Hcats]. constructor; [|by apply IH].
      by rewrite Hp.
Qed.

(** X18.  The admin product list holds every product of the store exactly
    once, newest first, each with the category found under its
    [categoryId]. *)
Theorem adminListProducts_lists_all (db : DB) :
  ∃ items,
    adminListProducts db = Json 200 items ∧
    fst <$> items ≡ₚ products db ∧
    StronglySorted newer_first (fst <$> items) ∧
    Forall (λ it : Product * option Category,
              it.2 = category_findUnique_id (p_categoryId it.1) db) items.
Proof.
  eexists. split; [reflexivity|].
  rewrite <- list_fmap_compose. erewrite (list_fmap_ext _ id); [|by intros].
  rewrite list_fmap_id. split_and!.
  - apply sort_desc_perm.
  - apply sort_desc_sorted.
  - apply Forall_fmap, Forall_forall. by intros.
Qed.

End ProductsMore.

(** ** Sessions, registration and purchase history *)

Section SessionMore.
Context `{Collaborators}.

Lemma find_in_users (f : User → bool) db u :
  List.find f (users db) = Some u → u ∈ users db.
Proof. intros Hf. apply find_some in Hf as [Hin _]. by apply list_elem_of_In. Qed.

(** X19.  A session lasts seven days: the token signed for a user id at
    time [t0] resolves to the stored user of that id at every time before
    [t0 + 604800] seconds and to nobody from then on; no cookie resolves to
    nobody; whoever a cookie resolves to is a user of the store; and a
    handler behind [requireAuth] runs for that user or the request is
    answered 401. *)
Theorem session_lasts_seven_days {Hlaws : CollaboratorsOk} (uid : Id) (t0 t : Z) (db : DB) :
  readUserFromReq (Some (signToken t0 uid)) t db =
    (if t <? t0 + 604800 then user_findUnique_id uid db else None) ∧
  readUserFromReq None t db = None ∧
  (∀ cookie u, readUserFromReq cookie t db = Some u → u ∈ users db) ∧
  ∀ (A : Type) (handler : User → DB → Reply A),
    requireAuth handler (Some (signToken t0 uid)) t db =
      match (if t <? t0 + 604800 then user_findUnique_id uid db else None) with
      | Some u => handler u db
      | None => Failure 401 "Unauthorized"
      end.
Proof.
  assert (Hread : readUserFromReq (Some (signToken t0 uid)) t db =
                  (if t <? t0 + 604800 then user_findUnique_id uid db else None)).
  { unfold readUserFromReq, jwt_verify, signToken. rewrite jwt_decode_encode.
    change (7 * 24 * 3600) with 604800. by destruct (t <? t0 + 604800). }
  split_and!; [done|done| |].
  - intros [token|] u; simpl; [|done].
    destruct (jwt_verify t token); [|done]. apply find_in_users.
  - intros A handler. unfold requireAuth. by rewrite Hread.
Qed.

Lemma toLowerCase_idempotent s : Js.toLowerCase (Js.toLowerCase s) = Js.toLowerCase s.
Proof.
  induction s as [|c s IH]; simpl; [done|]. f_equal; [|exact IH].
  by destruct c as [[] [] [] [] [] [] [] []].
Qed.

Lemma register_outcome b salt now db :
  (∃ e pw u,
     nonEmpty (auth_email b) = Some e ∧ nonEmpty (auth_password b) = Some pw ∧
     user_findUnique_email (Js.toLowerCase e) db = None ∧
     u = mkUser (newId (u_id <$> users db)) (Js.toLowerCase e) (bcrypt_hash salt pw) USER ∧
     register b salt now db =
       (Some (user_json (Some (signToken now (u_id u))) u),
        set_users (λ us, us ++ [u]) db)) ∨
  ((register b salt now db).2 = db ∧
   ∃ r, (register b salt now db).1 = Some r ∧ status r = 400).
Proof.
  unfold register.
  destruct (nonEmpty (auth_email b)) as [e|]; [|right; by eauto].
  destruct (nonEmpty (auth_password b)) as [pw|]; [|right; by eauto].
  destruct (user_findUnique_email _ db) eqn:Hfree; [right; by eauto|].
  unfold user_create. rewrite Hfree. left. by eexists e, pw, _.
Qed.

(** X21.  An email that has been registered is taken for good and in every
    letter case: after a registration that answered 200, and whatever users
    registered since, a registration whose email lower-cases to the same
    string is answered 400 "Email already in use" and changes nothing. *)
Theorem register_rejects_taken_email (b b' : AuthBody) (salt salt' : string)
    (t0 t1 : Z) (db db1 db2 : DB) (later : list User) (r : Response Token)
    (e e' pw' : string) :
  register b salt t0 db = (Some r, db1) → status r = 200 →
  users db2 = users db1 ++ later →
  auth_email b = Some e → auth_email b' = Some e' →
  Js.toLowerCase e' = Js.toLowerCase e →
  nonEmpty (auth_password b') = Some pw' →
  register b' salt' t1 db2 = (Some (error_json 400 "Email already in use"), db2).
Proof.
  intros Hreg Hok Hlater He He' Hlow Hpw'.
  destruct (register_outcome b salt t0 db)
    as [(e0 & pw & u & Hne & _ & Hfree & -> & E)|[_ (r0 & E & Hbad)]].
  2:{ rewrite Hreg in E. simpl in E. simplify_eq. lia. }
  rewrite Hreg in E. simplify_eq. simpl in Hlater.
  pose proof Hne as Hne'. apply nonEmpty_Some in Hne'. rewrite He in Hne'.
  injection Hne' as <-.
  unfold register. rewrite He', Hpw'.
  assert (nonEmpty (Some e') = Some e') as ->.
  { rewrite He in Hne. destruct e' as [|c s]; [|done]. by destruct e. }
  rewrite Hlow. unfold user_findUnique_email in *. rewrite Hlater.
  erewrite find_app_Some; [done|]. rewrite find_snoc, Hfree. simpl.
  by rewrite bool_decide_eq_true_2.
Qed.

(** X22.  With fresh ids from the store, registration keeps the user table
    well formed: user ids stay distinct, emails stay distinct, and every
    stored email is in lower case. *)
Theorem register_keeps_users_wf {Hlaws : CollaboratorsOk} (b : AuthBody)
    (salt : string) (now : Z) (db : DB) :
  users_wf db → users_wf (register b salt now db).2.
Proof.
  intros (Hids & Hemails & Hlow).
  destruct (register_outcome b salt now db)
    as [(e & pw & u & _ & _ & Hfree & -> & ->)|[-> _]]; [|done].
  unfold users_wf. simpl. rewrite !fmap_app. simpl. split_and!.
  - apply NoDup_app. split_and!; [done| |apply NoDup_singleton].
    intros x Hx [->|[]%elem_of_nil]%elem_of_cons. by apply newId_fresh in Hx.
  - apply NoDup_app. split_and!; [done| |apply NoDup_singleton].
    intros x Hx [->|[]%elem_of_nil]%elem_of_cons.
    apply list_elem_of_fmap in Hx as (v & Hv & Hin).
    unfold user_findUnique_email in Hfree.
    eapply find_none in Hfree; [|by apply list_elem_of_In].
    apply bool_decide_eq_false in Hfree. by apply Hfree.
  - apply Forall_app. split; [done|]. apply Forall_singleton. simpl.
    apply toLowerCase_idempotent.
Qed.

(** X23.  The order of a checkout that gave an email heads that email's
    purchase history, whatever the letter case the history is asked in: it
    comes first, with at least one line per cart line, all lines of its own
    id; and every order in a history carries the lower-cased email asked
    for. *)
Theorem checkout_then_ordersByEmail (req : CheckoutReq) (db db' : DB)
    (r : Response Token) (e e' : string) :
  checkout req db = (r, db') → status r = 200 →
  email req = Some e → e ≠ EmptyString →
  Js.toLowerCase e' = Js.toLowerCase e →
  ∃ o lines rest,
    ordersByEmailParam e' db' = Json 200 ((o, lines) :: rest) ∧
    r = json (CheckoutBody (o_id o) (o_totalCents o)) ∧
    Forall (λ l : OrderItem * option Product, oi_orderId l.1 = o_id o) lines ∧
    (length (items req) ≤ length lines)%nat ∧
    Forall (λ ol : Order * list (OrderItem * option Product),
              o_userEmail ol.1 = Some (Js.toLowerCase e')) ((o, lines) :: rest).
Proof.
  intros Hrun Hok He Hne Hlow.
  destruct (checkout_ok_inv _ _ _ _ Hrun Hok) as (o & m & _ & Hpass & _ & Hmail & Hr & Htx).
  apply tx_items_inv in Htx as (_ & _ & Ho & _ & new & Hois & Hlines).
  2:{ eapply Forall_impl; [exact Hpass|]. intros i (p & _ & ?). lia. }
  simpl in Ho, Hois.
  assert (Hmail' : o_userEmail o = Some (Js.toLowerCase e')).
  { rewrite Hmail, He, Hlow. unfold order_email. by destruct e. }
  unfold ordersByEmailParam, order_findMany_userEmail. rewrite Ho.
  rewrite filter_app, filter_cons_True, filter_nil by done.
  rewrite reverse_snoc. cbn [fmap list_fmap].
  eexists o, _, _. split; [reflexivity|]. split_and!; try done.
  - apply Forall_fmap, Forall_forall. by intros oi [? _]%list_elem_of_filter.
  - rewrite length_fmap, Hois, filter_app, length_app.
    assert (filter (λ oi, oi_orderId oi = o_id o) new = new) as ->.
    { clear -Hlines. induction Hlines as [|i oi its ois (p & _ & Hid & _) _ IH]; [done|].
      by rewrite filter_cons_True, IH. }
    apply Forall2_length in Hlines. lia.
  - constructor; [done|]. apply Forall_fmap, Forall_forall.
    intros o' Ho'. apply elem_of_reverse, list_elem_of_filter in Ho' as [? _]. done.
Qed.

Lemma isEmpty_toLowerCase s : Js.isEmpty (Js.toLowerCase s) = Js.isEmpty s.
Proof. by destruct s. Qed.

(** X24.  The two purchase-history routes agree: the query-string route
    answers 400 "email required" for a missing or blank email, and otherwise
    returns the orders the path route returns for the trimmed email, in the
    same order, with each product cut down to id, name, slug and imageUrl. *)
Theorem ordersByEmail_routes_agree (email : option string) (db : DB) :
  (Js.isEmpty (Js.trim (Js.nullish email EmptyString)) = true ∧
   ordersByEmailQuery email db = Failure 400 "email required") ∨
  (Js.isEmpty (Js.trim (Js.nullish email EmptyString)) = false ∧
   ∃ orders,
     ordersByEmailParam (Js.trim (Js.nullish email EmptyString)) db = Json 200 orders ∧
     ordersByEmailQuery email db =
       Json 200 ((λ ol : Order * list (OrderItem * option Product),
                    (ol.1, (λ l : OrderItem * option Product,
                              (l.1, product_summary <$> l.2)) <$> ol.2))
                   <$> orders)).
Proof.
  unfold ordersByEmailQuery, ordersByEmailParam. rewrite isEmpty_toLowerCase.
  destruct (Js.isEmpty _) eqn:E; [by left|right].
  split; [done|]. by eexists.
Qed.

End SessionMore.

(** ** The properties above on the example stores *)

Lemma seeded_products_wf : products_wf seeded.
Proof.
  split; [compute_done|].
  repeat constructor; simpl; apply list_elem_of_here.
Qed.

Lemma seeded_users_wf : users_wf seeded.
Proof.
  split_and!; [apply NoDup_singleton|apply NoDup_singleton|by repeat constructor].
Qed.

Lemma checkout_distinct_lines_keep_stock_witness :
  NoDup (p_id <$> products shop) ∧ NoDup (productId <$> items cart_2) ∧
  Forall (λ p, 0 ≤ p_stock p) (products shop) ∧
  ∃ r db',
    checkout (H := demo) cart_2 shop = (r, db') ∧
    Forall (λ p, 0 ≤ p_stock p) (products db').
Proof.
  assert (Hpos : Forall (λ p, 0 ≤ p_stock p) (products shop))
    by (apply Forall_singleton; simpl; lia).
  split; [apply NoDup_singleton|]. split; [apply NoDup_singleton|]. split; [exact Hpos|].
  eexists _, _. split; [vm_compute; reflexivity|].
  apply (checkout_distinct_lines_keep_stock (H := demo) cart_2 shop _
           (json (CheckoutBody "0" 2000)));
    [apply NoDup_singleton|apply NoDup_singleton|exact Hpos|vm_compute; reflexivity].
Defined.


Lemma listProducts_items_match_witness :
  plain_text (query_q query_tee_shouted) ∧
  plain_text (query_category query_tee_shouted) ∧
  ∃ r items page limit total pageCount,
    listProducts (H := demo) query_tee_shouted seeded = Some r ∧
    body r = PageBody items page limit total pageCount ∧
    p_name ∘ fst <$> items = ["Basic Tee"] ∧ total = 1 ∧
    Forall (λ it : Product * option Category,
              it.1 ∈ products seeded ∧
              Selected seeded (Js.trim <$> query_q query_tee_shouted)
                (Js.trim <$> query_category query_tee_shouted) it.1 ∧
              it.2 = category_findUnique_id (p_categoryId it.1) seeded) items ∧
    ∃ selected : Product → bool,
      (∀ p, selected p = true ↔
            Selected seeded (Js.trim <$> query_q query_tee_shouted)
              (Js.trim <$> query_category query_tee_shouted) p) ∧
      total = Z.of_nat (length (List.filter selected (products seeded))).
Proof.
  assert (Hq : plain_text (query_q query_tee_shouted)) by (intros s [= <-]; reflexivity).
  assert (Hc : plain_text (query_category query_tee_shouted))
    by (intros s [= <-]; reflexivity).
  split; [exact Hq|]. split; [exact Hc|].
  eexists _, _, _, _, _, _. split; [vm_compute; reflexivity|].
  split; [reflexivity|]. split; [reflexivity|]. split; [reflexivity|].
  eapply (listProducts_items_match (H := demo) query_tee_shouted seeded);
    [exact Hq|exact Hc|vm_compute; reflexivity|reflexivity].
Defined.

Lemma listProducts_pages_cover_witness :
  numeric (query_limit query_clothing) ∧
  plain_text (query_q query_clothing) ∧ plain_text (query_category query_clothing) ∧
  NoDup (p_createdAt <$> products catalog10) ∧
  (p_id <$> page_products (H := demo) (with_page 1 query_clothing) catalog10
     = ["j"; "i"; "h"]) ∧
  page_count (H := demo) (with_page 1 query_clothing) catalog10 = 4 ∧
  ∃ (all : list Product) (selected : Product → bool),
    concat ((λ k, page_products (H := demo) (with_page (Z.of_nat k) query_clothing) catalog10)
              <$> seq 1 (Z.to_nat (page_count (H := demo) (with_page 1 query_clothing)
                                     catalog10)))
      = all ∧
    (∀ p, selected p = true ↔
          Selected catalog10 (Js.trim <$> query_q query_clothing)
            (Js.trim <$> query_category query_clothing) p) ∧
    all ≡ₚ List.filter selected (products catalog10) ∧
    StronglySorted newer_first all ∧
    ∀ k : nat, page_count (H := demo) (with_page 1 query_clothing) catalog10 < Z.of_nat k →
               page_products (H := demo) (with_page (Z.of_nat k) query_clothing) catalog10
                 = [].
Proof.
  assert (Hl : numeric (query_limit query_clothing)) by discriminate.
  assert (Hq : plain_text (query_q query_clothing)) by (intros s [=]).
  assert (Hc : plain_text (query_category query_clothing))
    by (intros s [= <-]; reflexivity).
  assert (Hnd : NoDup (p_createdAt <$> products catalog10)) by compute_done.
  split; [exact Hl|]. split; [exact Hq|]. split; [exact Hc|]. split; [exact Hnd|].
  split; [vm_compute; reflexivity|]. split; [vm_compute; reflexivity|].
  apply (listProducts_pages_cover (H := demo) query_clothing catalog10 Hl Hq Hc Hnd).
Defined.

Lemma listProducts_ignores_case_witness :
  query_page query_tee_shouted = query_page query_tee_plain ∧
  query_limit query_tee_shouted = query_limit query_tee_plain ∧
  Js.toLowerCase ∘ Js.trim <$> query_q query_tee_shouted
    = Js.toLowerCase ∘ Js.trim <$> query_q query_tee_plain ∧
  Js.toLowerCase ∘ Js.trim <$> query_category query_tee_shouted
    = Js.toLowerCase ∘ Js.trim <$> query_category query_tee_plain ∧
  listProducts (H := demo) query_tee_shouted seeded
    = listProducts (H := demo) query_tee_plain seeded.
Proof.
  do 4 (split; [reflexivity|]).
  apply (listProducts_ignores_case (H := demo) query_tee_shouted query_tee_plain seeded);
    reflexivity.
Defined.

Lemma adminCreate_then_getBySlug_witness :
  ∃ r db' item,
    adminCreateProduct (H := demo) body_mug 9 seeded = (Some r, db') ∧ status r = 200 ∧
    body r = ItemBody item ∧ p_slug item = "coffee-mug" ∧ p_slug item ≠ EmptyString ∧
    ∃ cat,
      getProductBySlug (p_slug item) db' = Json 200 (item, Some cat) ∧
      c_id cat = p_categoryId item ∧
      truthy (b_name body_mug) = Some (p_name item).
Proof.
  eexists _, _, _. split; [vm_compute; reflexivity|]. split; [reflexivity|].
  split; [reflexivity|]. split; [reflexivity|]. split; [discriminate|].
  eapply (adminCreate_then_getBySlug (H := demo) body_mug 9 seeded);
    [vm_compute; reflexivity|reflexivity|reflexivity|discriminate].
Defined.

Lemma adminCreateProduct_slug_witness :
  ∃ r db',
    adminCreateProduct (H := demo) body_mug 9 seeded = (Some r, db') ∧ status r = 200 ∧
    truthy (b_slug body_mug) = None ∧
    ∃ item, r = json (ItemBody item) ∧ item ∈ products db' ∧
            p_slug item = makeSlug (p_name item) ∧ p_slug item = "coffee-mug".
Proof.
  eexists _, _. split; [vm_compute; reflexivity|]. split; [reflexivity|].
  split; [reflexivity|].
  destruct (adminCreateProduct_slug (H := demo) body_mug 9 seeded _ _
              ltac:(vm_compute; reflexivity) eq_refl eq_refl) as (item & Hr & Hin & Hslug).
  exists item. split; [exact Hr|]. split; [exact Hin|]. split; [exact Hslug|].
  injection Hr as <-. reflexivity.
Defined.

Lemma adminUpdateProduct_slug_cleared_witness :
  ∃ r db',
    adminUpdateProduct (H := demo) "p1" body_rename seeded = (Some r, db') ∧
    status r = 200 ∧ b_slug body_rename = Val EmptyString ∧
    (p_slug <$> product_findUnique_id "p1" db') = Some "new-tee" ∧
    ∃ item,
      body r = ItemBody item ∧
      product_findUnique_id "p1" db' = Some item ∧
      match truthy (b_name body_rename) with
      | Some name => p_name item = name ∧ p_slug item = makeSlug name
      | None => p_slug item = EmptyString
      end.
Proof.
  eexists _, _. split; [vm_compute; reflexivity|]. split; [reflexivity|].
  split; [reflexivity|]. split; [reflexivity|].
  eapply (adminUpdateProduct_slug_cleared (H := demo) "p1" body_rename seeded);
    [vm_compute; reflexivity|reflexivity|reflexivity].
Defined.

Lemma adminUpdate_then_read_witness :
  NoDup (p_slug <$> products seeded) ∧
  ∃ r db' item,
    adminUpdateProduct (H := demo) "p1" body_rename seeded = (Some r, db') ∧
    status r = 200 ∧ body r = ItemBody item ∧
    p_slug item = "new-tee" ∧ p_slug item ≠ EmptyString ∧
    product_findUnique_id "p1" db' = Some item ∧
    getProductBySlug (p_slug item) db' =
      Json 200 (item, category_findUnique_id (p_categoryId item) db').
Proof.
  assert (Hnd : NoDup (p_slug <$> products seeded)) by compute_done.
  split; [exact Hnd|].
  eexists _, _, _. split; [vm_compute; reflexivity|]. split; [reflexivity|].
  split; [reflexivity|]. split; [reflexivity|]. split; [discriminate|].
  eapply (adminUpdate_then_read (H := demo) "p1" body_rename seeded);
    [exact Hnd|vm_compute; reflexivity|reflexivity|reflexivity|discriminate].
Defined.

Lemma handlers_keep_products_wf_witness :
  products_wf seeded ∧
  (∀ b now, products_wf (adminCreateProduct (H := demo) b now seeded).2) ∧
  (∀ id b, products_wf (adminUpdateProduct (H := demo) id b seeded).2) ∧
  (∀ req, products_wf (checkout (H := demo) req seeded).2).
Proof.
  split; [exact seeded_products_wf|].
  apply (handlers_keep_products_wf (H := demo) (Hlaws := demo_ok) seeded).
  exact seeded_products_wf.
Defined.

Lemma session_lasts_seven_days_witness :
  readUserFromReq (H := demo) (Some (signToken (H := demo) 100 "u1")) 604899 seeded
    = Some (mkUser "u1" "ann@example.com" "secret$salt" USER) ∧
  readUserFromReq (H := demo) (Some (signToken (H := demo) 100 "u1")) 604900 seeded = None.
Proof.
  split.
  - destruct (session_lasts_seven_days (H := demo) (Hlaws := demo_ok) "u1" 100 604899 seeded)
      as (E & _). exact E.
  - destruct (session_lasts_seven_days (H := demo) (Hlaws := demo_ok) "u1" 100 604900 seeded)
      as (E & _). exact E.
Defined.

Lemma register_accepts_witness :
  "Carol@Example.com" ≠ EmptyString ∧ "hunter2" ≠ EmptyString ∧
  user_findUnique_email (Js.toLowerCase "Carol@Example.com") seeded = None ∧
  ∃ r u db',
    register (H := demo) (mkAuthBody (Some "Carol@Example.com") (Some "hunter2"))
             "salt" 0 seeded = (Some r, db') ∧
    status r = 200 ∧
    body r = UserBody (u_id u) (Js.toLowerCase "Carol@Example.com") USER ∧
    authCookie r = Some (jwt_encode (Collaborators := demo) (u_id u, 0 + 604800)) ∧
    users db' = users seeded ++ [u] ∧
    u_email u = Js.toLowerCase "Carol@Example.com" ∧ u_role u = USER ∧
    u_passwordHash u = bcrypt_hash (Collaborators := demo) "salt" "hunter2" ∧
    products db' = products seeded ∧ categories db' = categories seeded ∧
    orders db' = orders seeded ∧ orderItems db' = orderItems seeded.
Proof.
  split; [discriminate|]. split; [discriminate|]. split; [reflexivity|].
  apply (register_accepts (H := demo) "Carol@Example.com" "hunter2" "salt" 0 seeded);
    [discriminate|discriminate|reflexivity].
Defined.

Lemma register_rejects_taken_email_witness :
  ∃ r db1,
    register (H := demo) carol "salt" 0 seeded = (Some r, db1) ∧ status r = 200 ∧
    users (set_users (λ us, us ++ [dave]) db1) = users db1 ++ [dave] ∧
    auth_email carol = Some "Carol@Example.com" ∧
    auth_email carol_shouted = Some "CAROL@EXAMPLE.COM" ∧
    Js.toLowerCase "CAROL@EXAMPLE.COM" = Js.toLowerCase "Carol@Example.com" ∧
    nonEmpty (auth_password carol_shouted) = Some "other" ∧
    register (H := demo) carol_shouted "pepper" 5 (set_users (λ us, us ++ [dave]) db1)
      = (Some (error_json 400 "Email already in use"),
         set_users (λ us, us ++ [dave]) db1).
Proof.
  eexists _, _. split; [vm_compute; reflexivity|]. split; [reflexivity|].
  do 5 (split; [reflexivity|]).
  eapply (register_rejects_taken_email (H := demo) carol carol_shouted "salt" "pepper" 0 5
            seeded _ _ [dave] _ "Carol@Example.com" "CAROL@EXAMPLE.COM" "other");
    [vm_compute; reflexivity|reflexivity..].
Defined.

Lemma register_keeps_users_wf_witness :
  users_wf seeded ∧ users_wf (register (H := demo) carol "salt" 0 seeded).2.
Proof.
  split; [exact seeded_users_wf|].
  apply (register_keeps_users_wf (H := demo) (Hlaws := demo_ok) carol "salt" 0 seeded).
  exact seeded_users_wf.
Defined.

Lemma checkout_then_ordersByEmail_witness :
  ∃ r db',
    checkout (H := demo) cart_ann shop = (r, db') ∧ status r = 200 ∧
    email cart_ann = Some "Ann@Example.com" ∧ "Ann@Example.com" ≠ EmptyString ∧
    Js.toLowerCase "ANN@EXAMPLE.COM" = Js.toLowerCase "Ann@Example.com" ∧
    ∃ o lines rest,
      ordersByEmailParam "ANN@EXAMPLE.COM" db' = Json 200 ((o, lines) :: rest) ∧
      r = json (CheckoutBody (o_id o) (o_totalCents o)) ∧
      Forall (λ l : OrderItem * option Product, oi_orderId l.1 = o_id o) lines ∧
      (length (items cart_ann) ≤ length lines)%nat ∧
      Forall (λ ol : Order * list (OrderItem * option Product),
                o_userEmail ol.1 = Some (Js.toLowerCase "ANN@EXAMPLE.COM"))
             ((o, lines) :: rest).
Proof.
  eexists _, _. split; [vm_compute; reflexivity|]. split; [reflexivity|].
  split; [reflexivity|]. split; [discriminate|]. split; [reflexivity|].
  eapply (checkout_then_ordersByEmail (H := demo) cart_ann shop _ _
            "Ann@Example.com" "ANN@EXAMPLE.COM");
    [vm_compute; reflexivity|reflexivity|reflexivity|discriminate|reflexivity].
Defined.

